(** * nest-app: the post and comment services over a relational store

    A shallow embedding of [CommentService] and [PostService]
    (src/module/comment/comment.service.ts, which holds both classes).

    The services are thin layers over an ORM client, [this.prisma].  The
    client is not part of the sources; the model below gives each table
    as a list of rows (in insertion order) and each client call used by
    the services as a function on the store, following the client's
    documented behaviour:
    - [findUnique] returns the row or null;
    - [findMany] filters, orders, then applies [cursor], [skip], [take];
    - [count] counts the rows matching the filter;
    - [create] rejects with P2002 when a unique key is already taken;
    - [update] and [delete] reject with P2025 when no row matches.
    Only the unique keys the services themselves rely on (the keys they
    pass to [findUnique], [update] and [delete]) are enforced; foreign
    keys are declared in the schema, which is not among the sources, and
    are not enforced here.

    Every service method is [async] and may throw.  A thrown exception
    does not undo the writes made before it (no call is wrapped in a
    transaction), so a computation maps a store to an outcome AND a
    store. *)

From stdpp Require Import gmap strings list fin_maps sorting.

(** ** JavaScript values *)

(** Truthiness of a string: every string but the empty one. *)
Definition truthy (s : string) : bool := bool_decide (s ≠ "").

(** [x ? f(x) : null] on an optional string: the branch is taken for a
    present, non-empty string only. *)
Definition whenTruthy (o : option string) : option string :=
  match o with
  | Some s => if truthy s then Some s else None
  | None => None
  end.

(** *** Plain objects used as maps

    [list.reduce((acc, cur) => { acc[cur.key] = cur; return acc }, {})]
    fills a plain object.  Reading [obj[k]] from a plain object finds the
    value stored under [k], and failing that whatever the object
    inherits: every plain object inherits the members of
    [Object.prototype], listed below, all of them truthy.  Writing
    [obj["__proto__"] = v] with [v] an object stores nothing under that
    key: it makes [v] the prototype of [obj], so that the fields of [v]
    are found through [obj] from then on (and behind them the members
    [v] inherits from [Object.prototype]). *)

Definition objectPrototypeKeys : list string :=
  [ "constructor"; "__defineGetter__"; "__defineSetter__"; "hasOwnProperty";
    "__lookupGetter__"; "__lookupSetter__"; "isPrototypeOf"; "propertyIsEnumerable";
    "toString"; "valueOf"; "__proto__"; "toLocaleString" ].

(** What [obj[k]] yields on an object filled with records of type [V]. *)
Inductive JsValue (V : Type) :=
| JsRecord (v : V)
| JsMember
| JsString (s : string)
| JsUndefined.
Arguments JsRecord {V} _.
Arguments JsMember {V}.
Arguments JsString {V} _.
Arguments JsUndefined {V}.

(** [!!v]: a record and an inherited member (a function, or the prototype
    itself) are truthy, a string unless empty, [undefined] is not. *)
Definition toBoolean {V} (v : JsValue V) : bool :=
  match v with
  | JsRecord _ => true
  | JsMember => true
  | JsString s => truthy s
  | JsUndefined => false
  end.

(** The properties stored in the object itself, and the record that has
    replaced its prototype, if one has. *)
Record JsObject (V : Type) := mkObject { own : gmap string V; proto : option V }.
Arguments mkObject {V} _ _.
Arguments own {V} _.
Arguments proto {V} _.

Definition emptyObject {V} : JsObject V := mkObject ∅ None.

(** [obj[k] = v] *)
Definition objectSet {V} (k : string) (v : V) (o : JsObject V) : JsObject V :=
  if decide (k = "__proto__") then mkObject (own o) (Some v)
  else mkObject (<[k := v]> (own o)) (proto o).

(** [obj[k]], where [fieldOf v k] is the field of the record [v] named [k]
    (the fields here are strings). *)
Definition objectGet {V} (fieldOf : V → string → option string) (o : JsObject V) (k : string)
  : JsValue V :=
  match own o !! k with
  | Some v => JsRecord v
  | None =>
      match proto o ≫= (λ v, fieldOf v k) with
      | Some field => JsString field
      | None => if bool_decide (k ∈ objectPrototypeKeys) then JsMember else JsUndefined
      end
  end.

(** [obj?.[k]] *)
Definition optionalGet {V} (fieldOf : V → string → option string) (o : option (JsObject V))
    (k : string) : JsValue V :=
  match o with
  | Some o => objectGet fieldOf o k
  | None => JsUndefined
  end.

(** ** Rows of the store

    Ids and slugs are strings, counters and levels integers, dates the
    milliseconds since the epoch (so [new Date(0)] is 0), a nullable
    column an option. *)

Module User.
Record t := mk { id : string; username : string }.
End User.

Module Post.
Record t := mk {
  id : string;
  slug : string;
  title : string;
  body : string;
  userId : string;
  createdAt : Z;
  updatedAt : Z
}.
End Post.

Module PostStats.
Record t := mk { postId : string; likes : Z; commentsCount : Z }.
End PostStats.

Module PostLike.
Record t := mk { postId : string; userId : string }.
End PostLike.

Module Comment.
Record t := mk {
  id : string;
  text : string;
  userId : string;
  postId : string;
  parentCommentId : option string;
  level : Z;
  likes : Z;
  subCommentsCount : Z;
  deletedAt : option Z;
  createdAt : Z;
  updatedAt : Z
}.
End Comment.

Module CommentLike.
Record t := mk { commentId : string; userId : string }.
End CommentLike.

#[global] Instance PostLike_eq_dec : EqDecision PostLike.t.
Proof. solve_decision. Defined.

#[global] Instance CommentLike_eq_dec : EqDecision CommentLike.t.
Proof. solve_decision. Defined.

(** The fields of a join record that the code names (the schema, not among
    the sources, may give it more). *)
Definition postLikeField (l : PostLike.t) (k : string) : option string :=
  if decide (k = "postId") then Some (PostLike.postId l)
  else if decide (k = "userId") then Some (PostLike.userId l)
  else None.

Definition commentLikeField (l : CommentLike.t) (k : string) : option string :=
  if decide (k = "commentId") then Some (CommentLike.commentId l)
  else if decide (k = "userId") then Some (CommentLike.userId l)
  else None.

(** ** Shapes returned to the caller *)

(** [include: { user: { select: { id: true, username: true } } }]; both
    fields are null in a masked comment. *)
Module Author.
Record t := mk { id : option string; username : option string }.
End Author.

(** A comment row together with its included author. *)
Module CommentWithUser.
Record t := mk { row : Comment.t; user : Author.t }.
End CommentWithUser.

(** [{ ...comment, isLiked }] *)
Module CommentWithLiked.
Record t := mk { comment : CommentWithUser.t; isLiked : bool }.
End CommentWithLiked.

(** What [hideDeletedComments] yields: the fields of the comment, some of
    them overwritten (so [userId] may now be null), and [isDeleted]. *)
Module Rendered.
Record t := mk {
  id : string;
  text : string;
  userId : option string;
  postId : string;
  parentCommentId : option string;
  level : Z;
  likes : Z;
  subCommentsCount : Z;
  deletedAt : option Z;
  createdAt : Z;
  updatedAt : Z;
  user : Author.t;
  isLiked : bool;
  isDeleted : bool
}.
End Rendered.

(** [{ ...rootComment, subComments }] *)
Module Grouped.
Record t := mk { root : Rendered.t; subComments : list Rendered.t }.
End Grouped.

(** A post with [include: { user, postStats: true }]. *)
Module PostWithStats.
Record t := mk { row : Post.t; user : Author.t; postStats : option PostStats.t }.
End PostWithStats.

(** [{ ...post, isLiked }] *)
Module PostWithLiked.
Record t := mk { post : PostWithStats.t; isLiked : bool }.
End PostWithLiked.

(** [{ posts, nextCursor }] *)
Module Page.
Record t := mk { posts : list PostWithLiked.t; nextCursor : option string }.
End Page.

(** ** The store *)

Record Store := mkStore {
  users : list User.t;
  posts : list Post.t;
  postStats : list PostStats.t;
  postLikes : list PostLike.t;
  comments : list Comment.t;
  commentLikes : list CommentLike.t
}.

Definition set_posts (f : list Post.t → list Post.t) (s : Store) : Store :=
  mkStore (users s) (f (posts s)) (postStats s) (postLikes s) (comments s) (commentLikes s).

Definition set_postStats (f : list PostStats.t → list PostStats.t) (s : Store) : Store :=
  mkStore (users s) (posts s) (f (postStats s)) (postLikes s) (comments s) (commentLikes s).

Definition set_postLikes (f : list PostLike.t → list PostLike.t) (s : Store) : Store :=
  mkStore (users s) (posts s) (postStats s) (f (postLikes s)) (comments s) (commentLikes s).

Definition set_comments (f : list Comment.t → list Comment.t) (s : Store) : Store :=
  mkStore (users s) (posts s) (postStats s) (postLikes s) (f (comments s)) (commentLikes s).

(** ** Exceptions and asynchronous computations *)

Inductive AppError := NotFound | Unauthorized | BadRequest.

(** Client errors: P2002 unique constraint failed, P2025 record to update
    or delete not found. *)
Inductive PrismaError := P2002 | P2025.

Inductive Exception :=
| AppErrorException (e : AppError)
| PrismaClientKnownRequestError (e : PrismaError).

Inductive Outcome (A : Type) :=
| Resolved (a : A)
| Rejected (e : Exception).
Arguments Resolved {A} a.
Arguments Rejected {A} e.

Definition Async (A : Type) : Type := Store → Outcome A * Store.

Definition resolve {A} (a : A) : Async A := λ s, (Resolved a, s).

(** [await m] followed by the rest of the body: a rejection of [m] is the
    rejection of the whole, in the store [m] left. *)
Definition bind {A B} (m : Async A) (k : A → Async B) : Async B := λ s,
  match m s with
  | (Resolved a, s') => k a s'
  | (Rejected e, s') => (Rejected e, s')
  end.

Notation "'await' x ← m ; k" := (bind m (λ x, k))
  (at level 10, x name, m at level 100, k at level 200).

Definition throw {A} (e : Exception) : Async A := λ s, (Rejected e, s).

(** A read of the store. *)
Definition query {A} (f : Store → A) : Async A := λ s, (Resolved (f s), s).

(** ** Client calls *)

(** The first row satisfying [P]; with [P] a unique key, the row. *)
Definition findRow {A} (P : A → Prop) `{∀ x, Decision (P x)} (l : list A) : option A :=
  head (filter P l).

(** Replace the rows satisfying [P] by their image under [f]. *)
Definition updateRows {A} (P : A → Prop) `{∀ x, Decision (P x)} (f : A → A) (l : list A) : list A :=
  (λ x, if decide (P x) then f x else x) <$> l.

Definition countRows {A} (P : A → Prop) `{∀ x, Decision (P x)} (l : list A) : Z :=
  Z.of_nat (length (filter P l)).

(** The author of a row, as [include: { user: { select } }] attaches it.
    The relation is required, so the referenced user exists; the model,
    which does not enforce the reference, shows a missing one as nulls. *)
Definition includeUser (us : list User.t) (userId : string) : Author.t :=
  match findRow (λ u, User.id u = userId) us with
  | Some u => Author.mk (Some (User.id u)) (Some (User.username u))
  | None => Author.mk None None
  end.

(** [orderBy]: the rows in the order [R].  The store does not promise an
    order between rows that compare equal; the model keeps such rows in
    the order in which they are stored, and a statement that depends on
    the order between them says so by assuming distinct keys. *)
Fixpoint insertOrdered {A} (R : relation A) `{∀ x y, Decision (R x y)} (x : A) (l : list A)
  : list A :=
  match l with
  | [] => [x]
  | y :: l' => if decide (R x y) then x :: l else y :: insertOrdered R x l'
  end.

Definition orderBy {A} (R : relation A) `{∀ x y, Decision (R x y)} (l : list A) : list A :=
  foldr (insertOrdered R) [] l.

(** [orderBy: [{ createdAt: 'asc' }, { level: 'asc' }]] *)
Definition commentOrder (a b : Comment.t) : Prop :=
  (Comment.createdAt a < Comment.createdAt b)%Z ∨
  (Comment.createdAt a = Comment.createdAt b ∧ (Comment.level a ≤ Comment.level b)%Z).

#[global] Instance commentOrder_dec a b : Decision (commentOrder a b).
Proof. unfold commentOrder. apply _. Defined.

(** [orderBy: { createdAt: 'desc' }] *)
Definition postOrder (a b : Post.t) : Prop := (Post.createdAt b ≤ Post.createdAt a)%Z.

#[global] Instance postOrder_dec a b : Decision (postOrder a b).
Proof. unfold postOrder. apply _. Defined.

Definition post_findUnique_slug (slug : string) : Async (option Post.t) :=
  query (λ s, findRow (λ p, Post.slug p = slug) (posts s)).

(** [comment.findMany({ where: { postId }, orderBy, include: { user } })] *)
Definition comment_findMany (postId : string) : Async (list CommentWithUser.t) :=
  query (λ s,
    (λ c, CommentWithUser.mk c (includeUser (users s) (Comment.userId c))) <$>
    orderBy commentOrder (filter (λ c, Comment.postId c = postId) (comments s))).

(** [comment.findUnique({ where: { id }, include: { user } })] *)
Definition comment_findUnique (id : string) : Async (option CommentWithUser.t) :=
  query (λ s,
    (λ c, CommentWithUser.mk c (includeUser (users s) (Comment.userId c))) <$>
    findRow (λ c, Comment.id c = id) (comments s)).

(** [commentLike.findMany({ where: { commentId: { in: commentIds }, userId } })] *)
Definition commentLike_findMany (commentIds : list string) (userId : string) : Async (list CommentLike.t) :=
  query (λ s,
    filter (λ l, CommentLike.commentId l ∈ commentIds ∧ CommentLike.userId l = userId)
           (commentLikes s)).

Definition comment_count (P : Comment.t → Prop) `{∀ x, Decision (P x)} : Async Z :=
  query (λ s, countRows P (comments s)).

(** ** CommentService: reading *)

(** [list.reduce((acc, cur) => { acc[cur.commentId] = cur; return acc }, {})]:
    a plain object used as a map from comment id to like record. *)
Definition commentLikeRecord (list : list CommentLike.t) : JsObject CommentLike.t :=
  foldl (λ acc cur, objectSet (CommentLike.commentId cur) cur acc) emptyObject list.

Definition getCommentLikeMap (commentIds : list string) (userId : string)
  : Async (JsObject CommentLike.t) :=
  await list ← commentLike_findMany commentIds userId;
  resolve (commentLikeRecord list).

(** [isLiked: !!commentLike], of whatever the lookup in the object gave. *)
Definition mergeCommentLikeMap (comment : CommentWithUser.t)
    (commentLike : JsValue CommentLike.t) : CommentWithLiked.t :=
  CommentWithLiked.mk comment (toBoolean commentLike).

Definition hideDeletedComment (c : CommentWithLiked.t) : Rendered.t :=
  let r := CommentWithUser.row (CommentWithLiked.comment c) in
  match Comment.deletedAt r with
  | None =>
      {| Rendered.id := Comment.id r;
         Rendered.text := Comment.text r;
         Rendered.userId := Some (Comment.userId r);
         Rendered.postId := Comment.postId r;
         Rendered.parentCommentId := Comment.parentCommentId r;
         Rendered.level := Comment.level r;
         Rendered.likes := Comment.likes r;
         Rendered.subCommentsCount := Comment.subCommentsCount r;
         Rendered.deletedAt := Comment.deletedAt r;
         Rendered.createdAt := Comment.createdAt r;
         Rendered.updatedAt := Comment.updatedAt r;
         Rendered.user := CommentWithUser.user (CommentWithLiked.comment c);
         Rendered.isLiked := CommentWithLiked.isLiked c;
         Rendered.isDeleted := false |}
  | Some _ =>
      let someDate := 0%Z in
      {| Rendered.id := Comment.id r;
         Rendered.text := "";
         Rendered.userId := None;
         Rendered.postId := Comment.postId r;
         Rendered.parentCommentId := Comment.parentCommentId r;
         Rendered.level := Comment.level r;
         Rendered.likes := 0;
         Rendered.subCommentsCount := Comment.subCommentsCount r;
         Rendered.deletedAt := Comment.deletedAt r;
         Rendered.createdAt := someDate;
         Rendered.updatedAt := someDate;
         Rendered.user := Author.mk None None;
         Rendered.isLiked := CommentWithLiked.isLiked c;
         Rendered.isDeleted := true |}
  end.

Definition hideDeletedComments (comments : list CommentWithLiked.t) : list Rendered.t :=
  hideDeletedComment <$> comments.

(** The body of the [forEach] callback: a comment whose parentCommentId
    is falsy (null or the empty string) is skipped; any other is pushed
    onto the array stored under its parent's id. *)
Definition bucket (subCommentsMap : gmap string (list Rendered.t)) (comment : Rendered.t)
  : gmap string (list Rendered.t) :=
  match whenTruthy (Rendered.parentCommentId comment) with
  | None => subCommentsMap
  | Some parentCommentId =>
      let subComments := default [] (subCommentsMap !! parentCommentId) in
      <[parentCommentId := subComments ++ [comment]]> subCommentsMap
  end.

Definition groupSubComments (comments : list Rendered.t) : list Grouped.t :=
  let rootComments := filter (λ comment, Rendered.parentCommentId comment = None) comments in
  let subCommentsMap := foldl bucket ∅ comments in
  (λ rootComment,
     Grouped.mk rootComment (default [] (subCommentsMap !! Rendered.id rootComment)))
  <$> rootComments.

Definition findComments (slug : string) (userId : option string) : Async (list Grouped.t) :=
  await post ← post_findUnique_slug slug;
  match post with
  | None => throw (AppErrorException NotFound)
  | Some post =>
      await comments ← comment_findMany (Post.id post);
      await commetLikedMap ←
        match whenTruthy userId with
        | Some userId =>
            await m ← getCommentLikeMap
                  ((λ c, Comment.id (CommentWithUser.row c)) <$> comments) userId;
            resolve (Some m)
        | None => resolve None
        end;
      let commentsWithLiked :=
        (λ comment,
           mergeCommentLikeMap comment
             (optionalGet commentLikeField commetLikedMap
                (Comment.id (CommentWithUser.row comment))))
        <$> comments in
      let filteredComments := hideDeletedComments commentsWithLiked in
      let groupedComments := groupSubComments filteredComments in
      resolve groupedComments
  end.

Definition findComment (commentId : string) : Async CommentWithUser.t :=
  await comment ← comment_findUnique commentId;
  match comment with
  | None => throw (AppErrorException NotFound)
  | Some comment =>
      if bool_decide (is_Some (Comment.deletedAt (CommentWithUser.row comment)))
      then throw (AppErrorException NotFound)
      else resolve comment
  end.

(** ** Writes to the comment and statistics tables *)

Definition withDeletedAt (d : option Z) (c : Comment.t) : Comment.t :=
  Comment.mk (Comment.id c) (Comment.text c) (Comment.userId c) (Comment.postId c)
    (Comment.parentCommentId c) (Comment.level c) (Comment.likes c)
    (Comment.subCommentsCount c) d (Comment.createdAt c) (Comment.updatedAt c).

Definition withSubCommentsCount (n : Z) (c : Comment.t) : Comment.t :=
  Comment.mk (Comment.id c) (Comment.text c) (Comment.userId c) (Comment.postId c)
    (Comment.parentCommentId c) (Comment.level c) (Comment.likes c)
    n (Comment.deletedAt c) (Comment.createdAt c) (Comment.updatedAt c).

Definition withUpdatedAt (u : Z) (c : Comment.t) : Comment.t :=
  Comment.mk (Comment.id c) (Comment.text c) (Comment.userId c) (Comment.postId c)
    (Comment.parentCommentId c) (Comment.level c) (Comment.likes c)
    (Comment.subCommentsCount c) (Comment.deletedAt c) (Comment.createdAt c) u.

Definition withCommentsCount (n : Z) (st : PostStats.t) : PostStats.t :=
  PostStats.mk (PostStats.postId st) (PostStats.likes st) n.

Definition withLikes (n : Z) (st : PostStats.t) : PostStats.t :=
  PostStats.mk (PostStats.postId st) n (PostStats.commentsCount st).

Module CreateCommentDto.
Record t := mk { text : string; postId : string; parentCommentId : option string }.
End CreateCommentDto.

Module CreatePostDto.
Record t := mk { title : string; body : string }.
End CreatePostDto.

(** What the environment supplies to one call: the clock ([new Date()],
    the store's [now()]), the identifier the store gives a created row,
    and the value [generateId()] draws. *)
Module Env.
Record t := mk { now : Z; newId : string; generatedId : string }.
End Env.

(** Modelled from the spec: the column defaults of the schema, which is
    not among the sources.  A comment created without a level is a root
    (level 0); its counters start at 0 and it is alive (delete timestamp
    null); the statistics record of a post starts zeroed. *)
Definition newComment (env : Env.t) (text userId postId : string)
    (parentCommentId : option string) (level : option Z) : Comment.t :=
  {| Comment.id := Env.newId env;
     Comment.text := text;
     Comment.userId := userId;
     Comment.postId := postId;
     Comment.parentCommentId := parentCommentId;
     Comment.level := default 0%Z level;
     Comment.likes := 0;
     Comment.subCommentsCount := 0;
     Comment.deletedAt := None;
     Comment.createdAt := Env.now env;
     Comment.updatedAt := Env.now env |}.


Section Services.

(** Whether the schema refreshes [updatedAt] on an update is decided by
    the schema: [touch now old] is the value the store leaves in the
    column ([now] for an auto-updated column, [old] otherwise). *)
Variable touch : Z → Z → Z.

(** [slugify] of src/utils/slugify, not among the sources. *)
Variable slugify : string → string.

(** [comment.create]: rejected on a taken id.  The references of the row
    (to its post, its author, its parent) are checked by the store from
    the schema, which is not among the sources, and are not checked
    here; a statement about an insert therefore assumes that what the
    row refers to is stored. *)
Definition comment_create (row : Comment.t) : Async Comment.t := λ s,
  match findRow (λ c, Comment.id c = Comment.id row) (comments s) with
  | Some _ => (Rejected (PrismaClientKnownRequestError P2002), s)
  | None => (Resolved row, set_comments (λ l, l ++ [row]) s)
  end.

Definition comment_update (env : Env.t) (id : string) (data : Comment.t → Comment.t)
  : Async Comment.t := λ s,
  let upd c := withUpdatedAt (touch (Env.now env) (Comment.updatedAt c)) (data c) in
  match findRow (λ c, Comment.id c = id) (comments s) with
  | None => (Rejected (PrismaClientKnownRequestError P2025), s)
  | Some c => (Resolved (upd c), set_comments (updateRows (λ c, Comment.id c = id) upd) s)
  end.

Definition postStats_update (postId : string) (data : PostStats.t → PostStats.t)
  : Async PostStats.t := λ s,
  match findRow (λ st, PostStats.postId st = postId) (postStats s) with
  | None => (Rejected (PrismaClientKnownRequestError P2025), s)
  | Some st =>
      (Resolved (data st),
       set_postStats (updateRows (λ st, PostStats.postId st = postId) data) s)
  end.



(** ** CommentService: writing *)

Definition updatePostCommentsCount (postId : string) : Async Z :=
  await commentsCount ← comment_count (λ c, Comment.postId c = postId);
  await _ ← postStats_update postId (withCommentsCount commentsCount);
  resolve commentsCount.

Definition createComment (env : Env.t) (userId : string) (dto : CreateCommentDto.t)
  : Async Comment.t :=
  let text := CreateCommentDto.text dto in
  let postId := CreateCommentDto.postId dto in
  await parentComment ←
    match whenTruthy (CreateCommentDto.parentCommentId dto) with
    | Some parentCommentId => await c ← findComment parentCommentId; resolve (Some c)
    | None => resolve None
    end;
  let parentId : option string :=
    (λ p, Comment.id (CommentWithUser.row p)) <$> (parentComment : option _) in
  let level : option Z :=
    (λ p, Comment.level (CommentWithUser.row p) + 1)%Z <$> (parentComment : option _) in
  if match level with Some l => bool_decide (2 ≤ l)%Z | None => false end
  then throw (AppErrorException BadRequest)
  else
    await createComment ← comment_create (newComment env text userId postId parentId level);
    await _ ← match parentId with
          | Some parentId =>
              await subCommentsCount ←
                comment_count (λ c, Comment.parentCommentId c = Some parentId);
              await _ ← comment_update env parentId (withSubCommentsCount subCommentsCount);
              resolve ()
          | None => resolve ()
          end;
    await _ ← updatePostCommentsCount postId;
    resolve createComment.

Definition deleteComment (env : Env.t) (userId commentId : string) : Async Comment.t :=
  await comment ← findComment commentId;
  if bool_decide (Comment.userId (CommentWithUser.row comment) ≠ userId)
  then throw (AppErrorException Unauthorized)
  else comment_update env commentId (withDeletedAt (Some (Env.now env))).

(** ** PostService *)

(** [cursor: { id }]: the ordered rows from the cursor row on, the cursor
    row included; none when no row has that id. *)
Fixpoint fromCursor (id : string) (l : list Post.t) : list Post.t :=
  match l with
  | [] => []
  | p :: l' => if decide (Post.id p = id) then l else fromCursor id l'
  end.

Definition includePost (s : Store) (p : Post.t) : PostWithStats.t :=
  PostWithStats.mk p
    (includeUser (users s) (Post.userId p))
    (findRow (λ st, PostStats.postId st = Post.id p) (postStats s)).

(** [post.findMany({ take, skip, cursor, orderBy: { createdAt: 'desc' },
    include })]: [skip] rows are passed over whether or not a cursor is
    given. *)
Definition post_findMany (take_ skip_ : nat) (cursor : option string)
  : Async (list PostWithStats.t) :=
  query (λ s,
    let ordered := orderBy postOrder (posts s) in
    let rows := match cursor with
                | Some id => fromCursor id ordered
                | None => ordered
                end in
    includePost s <$> take take_ (drop skip_ rows)).

Definition postLike_findMany (postIds : list string) (userId : string)
  : Async (list PostLike.t) :=
  query (λ s,
    filter (λ l, PostLike.postId l ∈ postIds ∧ PostLike.userId l = userId) (postLikes s)).

Definition postLike_findUnique (postId userId : string) : Async (option PostLike.t) :=
  query (λ s, findRow (λ l, l = PostLike.mk postId userId) (postLikes s)).

Definition postLike_create (row : PostLike.t) : Async PostLike.t := λ s,
  match findRow (λ l, l = row) (postLikes s) with
  | Some _ => (Rejected (PrismaClientKnownRequestError P2002), s)
  | None => (Resolved row, set_postLikes (λ l, l ++ [row]) s)
  end.

Definition postLike_delete (postId userId : string) : Async PostLike.t := λ s,
  match findRow (λ l, l = PostLike.mk postId userId) (postLikes s) with
  | None => (Rejected (PrismaClientKnownRequestError P2025), s)
  | Some row => (Resolved row, set_postLikes (filter (λ l, l ≠ row)) s)
  end.

Definition postLike_count (postId : string) : Async Z :=
  query (λ s, countRows (λ l, PostLike.postId l = postId) (postLikes s)).

(** [list.reduce((acc, cur) => { acc[cur.postId] = cur; return acc }, {})] *)
Definition postLikeRecord (list : list PostLike.t) : JsObject PostLike.t :=
  foldl (λ acc cur, objectSet (PostLike.postId cur) cur acc) emptyObject list.

Definition getPostLikedMap (postIds : list string) (userId : string)
  : Async (JsObject PostLike.t) :=
  await list ← postLike_findMany postIds userId;
  resolve (postLikeRecord list).

(** [isLiked: !!postLike], of whatever the lookup in the object gave. *)
Definition mergePostLiked (post : PostWithStats.t) (postLike : JsValue PostLike.t)
  : PostWithLiked.t :=
  PostWithLiked.mk post (toBoolean postLike).

Definition postId_of (p : PostWithLiked.t) : string :=
  Post.id (PostWithStats.row (PostWithLiked.post p)).

Definition findPostsByQuries (cursor userId : option string) : Async Page.t :=
  let size := 20%nat in
  await posts ← post_findMany size 1 (whenTruthy cursor);
  await postLikedMap ←
    match whenTruthy userId with
    | Some userId =>
        await m ← getPostLikedMap ((λ p, Post.id (PostWithStats.row p)) <$> posts) userId;
        resolve (Some m)
    | None => resolve None
    end;
  let postsWithLiked :=
    (λ post,
       mergePostLiked post
         (optionalGet postLikeField postLikedMap (Post.id (PostWithStats.row post))))
    <$> posts in
  let nextCursor := postId_of <$> postsWithLiked !! (size - 1)%nat in
  resolve (Page.mk postsWithLiked nextCursor).

(** The caller of the spec's pagination property: ask for the first page
    with no cursor, then pass each returned [nextCursor], until none is
    returned; the posts of all pages in the order received.  [None] when
    [fuel] requests did not reach the last page. *)
Fixpoint listAllPages (fuel : nat) (cursor userId : option string)
  : Async (option (list PostWithLiked.t)) :=
  match fuel with
  | O => resolve None
  | S fuel =>
      await page ← findPostsByQuries cursor userId;
      match Page.nextCursor page with
      | None => resolve (Some (Page.posts page))
      | Some next =>
          await rest ← listAllPages fuel (Some next) userId;
          resolve ((λ r, Page.posts page ++ r) <$> rest)
      end
  end.


Definition updatePostLikes (postId : string) : Async PostStats.t :=
  await likes ← postLike_count postId;
  await postStats ← postStats_update postId (withLikes likes);
  resolve postStats.

Definition likePost (userId postId : string) : Async PostStats.t :=
  await alreadyLiked ← postLike_findUnique postId userId;
  await _ ←
    match alreadyLiked with
    | None => await _ ← postLike_create (PostLike.mk postId userId); resolve ()
    | Some _ => resolve ()
    end;
  await postStats ← updatePostLikes postId;
  resolve postStats.

Definition unlikePost (userId postId : string) : Async PostStats.t :=
  await alreadyLiked ← postLike_findUnique postId userId;
  await _ ←
    match alreadyLiked with
    | Some _ => await _ ← postLike_delete postId userId; resolve ()
    | None => resolve ()
    end;
  await postStats ← updatePostLikes postId;
  resolve postStats.

End Services.

(** ** Vocabulary of the statements *)

(** [c] is a reply that [groupSubComments] files under [parentId]. *)
Definition childOf (parentId : string) (c : Rendered.t) : Prop :=
  whenTruthy (Rendered.parentCommentId c) = Some parentId.

#[global] Instance childOf_dec parentId c : Decision (childOf parentId c).
Proof. unfold childOf. apply _. Defined.

(** [r] shows the comment [row], whose author is [user], the way a list
    shows it: id, parentCommentId and level as stored; when the delete
    timestamp is set, empty text, no likes, a null author, epoch
    timestamps and the mark [isDeleted]; when it is null, every field as
    stored and [isDeleted] false. *)
Definition shownAs (row : Comment.t) (user : Author.t) (r : Rendered.t) : Prop :=
  Rendered.id r = Comment.id row ∧
  Rendered.parentCommentId r = Comment.parentCommentId row ∧
  Rendered.level r = Comment.level row ∧
  (is_Some (Comment.deletedAt row) →
     Rendered.text r = "" ∧ Rendered.likes r = 0%Z ∧
     Rendered.user r = Author.mk None None ∧
     Rendered.createdAt r = 0%Z ∧ Rendered.updatedAt r = 0%Z ∧
     Rendered.isDeleted r = true) ∧
  (Comment.deletedAt row = None →
     Rendered.text r = Comment.text row ∧
     Rendered.likes r = Comment.likes row ∧
     Rendered.userId r = Some (Comment.userId row) ∧
     Rendered.postId r = Comment.postId row ∧
     Rendered.subCommentsCount r = Comment.subCommentsCount row ∧
     Rendered.deletedAt r = None ∧
     Rendered.createdAt r = Comment.createdAt row ∧
     Rendered.updatedAt r = Comment.updatedAt row ∧
     Rendered.user r = user ∧
     Rendered.isDeleted r = false).

(** Lookup by primary key. *)
Definition commentById (s : Store) (id : string) : option Comment.t :=
  findRow (λ c, Comment.id c = id) (comments s).

Definition postBySlug (s : Store) (slug : string) : option Post.t :=
  findRow (λ p, Post.slug p = slug) (posts s).

Definition statsOf (s : Store) (postId : string) : option PostStats.t :=
  findRow (λ st, PostStats.postId st = postId) (postStats s).

Definition postById (s : Store) (id : string) : option Post.t :=
  findRow (λ p, Post.id p = id) (posts s).


(** The number of join records of a post, and of a (post, user) pair. *)
Definition likeRecords (s : Store) (postId : string) : nat :=
  length (filter (λ l, PostLike.postId l = postId) (postLikes s)).

Definition joinRecords (s : Store) (postId userId : string) : nat :=
  length (filter (λ l, l = PostLike.mk postId userId) (postLikes s)).

(** A sequence of like and unlike requests on one post, each by some
    user, served one after the other. *)
Inductive LikeAction := Like (userId : string) | Unlike (userId : string).

Fixpoint serveLikes (postId : string) (actions : list LikeAction) : Async () :=
  match actions with
  | [] => resolve ()
  | Like userId :: rest =>
      await _ ← likePost userId postId; serveLikes postId rest
  | Unlike userId :: rest =>
      await _ ← unlikePost userId postId; serveLikes postId rest
  end.

(** The posts as [findPostsByQuries] orders them, newest first. *)
Definition orderedPosts (s : Store) : list Post.t := orderBy postOrder (posts s).

(** The ordered rows a cursor selects: all of them without a cursor. *)
Definition cursorRows (s : Store) (cursor : option string) : list Post.t :=
  match whenTruthy cursor with
  | Some id => fromCursor id (orderedPosts s)
  | None => orderedPosts s
  end.

Definition rowsOf (l : list PostWithLiked.t) : list Post.t :=
  (λ p, PostWithStats.row (PostWithLiked.post p)) <$> l.

(** ** Sample data *)

Definition sampleLiked (id text : string) (deletedAt : option Z) : CommentWithLiked.t :=
  CommentWithLiked.mk
    (CommentWithUser.mk
       (Comment.mk id text "u1" "p1" None 0 3 0 deletedAt 7 8)
       (Author.mk (Some "u1") (Some "alice")))
    true.

Definition sampleRendered (id : string) (parentCommentId : option string) (level : Z)
  : Rendered.t :=
  Rendered.mk id "text" (Some "u1") "p1" parentCommentId level 0 0 None 7 7
    (Author.mk (Some "u1") (Some "alice")) false false.

(** A post with three root comments A, B, C, where B has the replies B1
    and B2 and C is soft-deleted; the rows are stored in no particular
    order. *)
Definition sampleUsers : list User.t := [User.mk "u1" "alice"; User.mk "u2" "bob"].

Definition samplePost : Post.t := Post.mk "p1" "hello" "Hello" "body" "u1" 100 100.

Definition sampleComment (id text userId : string) (parentCommentId : option string)
    (level : Z) (deletedAt : option Z) (createdAt : Z) : Comment.t :=
  Comment.mk id text userId "p1" parentCommentId level 0 0 deletedAt createdAt createdAt.

Definition sampleStore : Store :=
  mkStore sampleUsers [samplePost] [PostStats.mk "p1" 0 5] []
    [ sampleComment "B2" "b2" "u1" (Some "B") 1 None 5;
      sampleComment "A" "a" "u1" None 0 None 1;
      sampleComment "B" "b" "u2" None 0 None 2;
      sampleComment "C" "c" "u2" None 0 (Some 10%Z) 3;
      sampleComment "B1" "b1" "u1" (Some "B") 1 None 4 ]
    [].

(** A live comment of [sampleStore] as it is listed. *)
Definition listedLive (id text userId username : string) (parentCommentId : option string)
    (level createdAt : Z) : Rendered.t :=
  Rendered.mk id text (Some userId) "p1" parentCommentId level 0 0 None createdAt createdAt
    (Author.mk (Some userId) (Some username)) false false.

Definition sampleEnv : Env.t := Env.mk 50 "N" "x7".

(** A schema whose [updatedAt] columns are refreshed on update. *)
Definition sampleTouch : Z → Z → Z := λ now _, now.

Definition sampleReplyTo (parentCommentId : string) : CreateCommentDto.t :=
  CreateCommentDto.mk "reply" "p1" (Some parentCommentId).



(** Three posts, "p3" the newest. *)
Definition threePosts : Store :=
  mkStore sampleUsers
    [ Post.mk "p1" "one" "one" "first" "u1" 100 100;
      Post.mk "p3" "three" "three" "third" "u1" 300 300;
      Post.mk "p2" "two" "two" "second" "u2" 200 200 ]
    [ PostStats.mk "p1" 0 0; PostStats.mk "p2" 0 0; PostStats.mk "p3" 0 0 ] [] [] [].

(** ** CommentService: likes *)

Definition set_commentLikes (f : list CommentLike.t → list CommentLike.t) (s : Store) : Store :=
  mkStore (users s) (posts s) (postStats s) (postLikes s) (comments s) (f (commentLikes s)).

Definition withCommentLikes (n : Z) (c : Comment.t) : Comment.t :=
  Comment.mk (Comment.id c) (Comment.text c) (Comment.userId c) (Comment.postId c)
    (Comment.parentCommentId c) (Comment.level c) n
    (Comment.subCommentsCount c) (Comment.deletedAt c) (Comment.createdAt c)
    (Comment.updatedAt c).

(** [commentLike.findUnique({ where: { commentId_userId } })] *)
Definition commentLike_findUnique (commentId userId : string) : Async (option CommentLike.t) :=
  query (λ s, findRow (λ l, l = CommentLike.mk commentId userId) (commentLikes s)).

Definition commentLike_create (row : CommentLike.t) : Async CommentLike.t := λ s,
  match findRow (λ l, l = row) (commentLikes s) with
  | Some _ => (Rejected (PrismaClientKnownRequestError P2002), s)
  | None => (Resolved row, set_commentLikes (λ l, l ++ [row]) s)
  end.

Definition commentLike_delete (commentId userId : string) : Async CommentLike.t := λ s,
  match findRow (λ l, l = CommentLike.mk commentId userId) (commentLikes s) with
  | None => (Rejected (PrismaClientKnownRequestError P2025), s)
  | Some row => (Resolved row, set_commentLikes (filter (λ l, l ≠ row)) s)
  end.

Definition commentLike_count (commentId : string) : Async Z :=
  query (λ s, countRows (λ l, CommentLike.commentId l = commentId) (commentLikes s)).

Section CommentLikes.

Variable touch : Z → Z → Z.

Definition updateCommentLikes (env : Env.t) (commentId : string) : Async Z :=
  await commentLikes ← commentLike_count commentId;
  await _ ← comment_update touch env commentId (withCommentLikes commentLikes);
  resolve commentLikes.

Definition likeComment (env : Env.t) (userId commentId : string) : Async Z :=
  await alreadyLiked ← commentLike_findUnique commentId userId;
  await _ ←
    match alreadyLiked with
    | None => await _ ← commentLike_create (CommentLike.mk commentId userId); resolve ()
    | Some _ => resolve ()
    end;
  await commentLikes ← updateCommentLikes env commentId;
  resolve commentLikes.

Definition unlikeComment (env : Env.t) (userId commentId : string) : Async Z :=
  await alreadyLiked ← commentLike_findUnique commentId userId;
  await _ ←
    match alreadyLiked with
    | Some _ => await _ ← commentLike_delete commentId userId; resolve ()
    | None => resolve ()
    end;
  await commentLikes ← updateCommentLikes env commentId;
  resolve commentLikes.

End CommentLikes.

(** ** PostService: lookup, search, deletion *)

(** [post.findUnique({ where: { id }, include })] *)
Definition post_findUnique_id (id : string) : Async (option PostWithStats.t) :=
  query (λ s, includePost s <$> findRow (λ p, Post.id p = id) (posts s)).

(** [post.findUnique({ where: { slug }, include })] *)
Definition post_findUnique_slug_include (slug : string) : Async (option PostWithStats.t) :=
  query (λ s, includePost s <$> findRow (λ p, Post.slug p = slug) (posts s)).

(** [post.delete({ where: { id } })].  What becomes of the rows that refer
    to the post (its statistics, likes and comments) is set by the
    referential actions of the schema, which is not among the sources;
    the model removes the post row only. *)
Definition post_delete (id : string) : Async Post.t := λ s,
  match findRow (λ p, Post.id p = id) (posts s) with
  | None => (Rejected (PrismaClientKnownRequestError P2025), s)
  | Some p => (Resolved p, set_posts (filter (λ p, Post.id p ≠ id)) s)
  end.

Definition findPostById (postId : string) : Async PostWithStats.t :=
  await post ← post_findUnique_id postId;
  match post with
  | None => throw (AppErrorException NotFound)
  | Some post => resolve post
  end.

Definition findPostBySlug (slug : string) (userId : option string) : Async PostWithLiked.t :=
  await post ← post_findUnique_slug_include slug;
  match post with
  | None => throw (AppErrorException NotFound)
  | Some post =>
      await postLikedMap ←
        match whenTruthy userId with
        | Some userId =>
            await m ← getPostLikedMap [Post.id (PostWithStats.row post)] userId;
            resolve (Some m)
        | None => resolve None
        end;
      resolve
        (mergePostLiked post
           (optionalGet postLikeField postLikedMap (Post.id (PostWithStats.row post))))
  end.

Definition deletePost (userId postId : string) : Async Post.t :=
  await post ← findPostById postId;
  if bool_decide (Post.userId (PostWithStats.row post) ≠ userId)
  then throw (AppErrorException Unauthorized)
  else post_delete postId.

Section Search.

(** [contains field keyword]: the store's substring test behind
    [{ contains: keyword }]; its case sensitivity is the store's. *)
Variable contains : string → string → bool.

(** [where: { OR: [{ title: { contains } }, { body: { contains } }] }] *)
Definition matches (keyword : string) (p : Post.t) : Prop :=
  contains (Post.title p) keyword = true ∨ contains (Post.body p) keyword = true.

#[global] Instance matches_dec keyword p : Decision (matches keyword p).
Proof. unfold matches. apply _. Defined.

Definition searchPosts (keyword : string) : Async (list PostWithStats.t) :=
  query (λ s, includePost s <$> orderBy postOrder (filter (matches keyword) (posts s))).

End Search.

(** ** Further vocabulary *)

(** The join records of a comment, and of a (comment, user) pair. *)
Definition commentLikeRecords (s : Store) (commentId : string) : nat :=
  length (filter (λ l, CommentLike.commentId l = commentId) (commentLikes s)).

Definition commentJoinRecords (s : Store) (commentId userId : string) : nat :=
  length (filter (λ l, l = CommentLike.mk commentId userId) (commentLikes s)).

(** The entries of a grouped list: each root and its subComments. *)
Definition entries (gs : list Grouped.t) : list Rendered.t :=
  gs ≫= (λ g, Grouped.root g :: Grouped.subComments g).

(** The two-level shape [groupSubComments] expects of its input: the
    roots have distinct ids, and every other comment names, by a
    non-empty id, a root of the list. *)
Definition twoLevel (cs : list Rendered.t) : Prop :=
  NoDup (Rendered.id <$> filter (λ c, Rendered.parentCommentId c = None) cs) ∧
  ∀ c, c ∈ cs → ∀ p, Rendered.parentCommentId c = Some p →
    p ≠ "" ∧ ∃ r, r ∈ cs ∧ Rendered.parentCommentId r = None ∧ Rendered.id r = p.

(** ** Further sample data *)

(** A substring test: [keyword] occurs in [field], case-sensitively. *)
Definition sampleContains (field keyword : string) : bool :=
  bool_decide (is_Some (String.index 0 keyword field)).

Definition sampleLikes : Store :=
  mkStore sampleUsers (posts threePosts) (postStats threePosts)
    [PostLike.mk "p2" "u1"]
    (comments sampleStore)
    [CommentLike.mk "C" "u2"; CommentLike.mk "B1" "u1"].

(** A post and a comment whose ids are names of members every object
    inherits; nobody has liked either. *)
Definition inheritedIds : Store :=
  mkStore sampleUsers
    [ Post.mk "constructor" "ctor" "ctor" "body" "u1" 100 100 ]
    [ PostStats.mk "constructor" 0 0 ] []
    [ Comment.mk "toString" "text" "u1" "constructor" None 0 0 0 None 5 5 ] [].

(** The viewer, when one is given, has a join record with the subject. *)
Definition likedPost (s : Store) (viewer : option string) (postId : string) : Prop :=
  ∃ u, whenTruthy viewer = Some u ∧ PostLike.mk postId u ∈ postLikes s.

Definition likedComment (s : Store) (viewer : option string) (commentId : string) : Prop :=
  ∃ u, whenTruthy viewer = Some u ∧ CommentLike.mk commentId u ∈ commentLikes s.

(** * Properties *)

(** ** Computations *)

Lemma bind_Resolved {A B} (m : Async A) (k : A → Async B) (s s' : Store) (b : B) :
  bind m k s = (Resolved b, s') →
  ∃ a s1, m s = (Resolved a, s1) ∧ k a s1 = (Resolved b, s').
Proof.
  unfold bind. destruct (m s) as [[a|e] s1]; [eauto|discriminate].
Qed.

Lemma bind_run {A B} (m : Async A) (k : A → Async B) (s s1 : Store) (a : A) :
  m s = (Resolved a, s1) → bind m k s = k a s1.
Proof. unfold bind. by intros ->. Qed.

(** ** Rows and lookups *)

Lemma findRow_Some {A} (P : A → Prop) `{∀ x, Decision (P x)} (l : list A) (x : A) :
  findRow P l = Some x → x ∈ l ∧ P x.
Proof.
  unfold findRow. intros Hh. apply head_Some_elem_of in Hh.
  apply list_elem_of_filter in Hh. tauto.
Qed.

Lemma findRow_None {A} (P : A → Prop) `{∀ x, Decision (P x)} (l : list A) :
  findRow P l = None ↔ ∀ x, x ∈ l → ¬ P x.
Proof.
  unfold findRow. rewrite head_None. split.
  - intros Hnil x Hx HP.
    assert (Hin : x ∈ filter P l) by (apply list_elem_of_filter; done).
    rewrite Hnil in Hin. by apply not_elem_of_nil in Hin.
  - intros Hall. induction l as [|y l IH]; [done|].
    rewrite filter_cons. destruct (decide (P y)) as [HP|HP].
    + exfalso. apply (Hall y); [left | done].
    + apply IH. intros x Hx. apply Hall. by right.
Qed.



Lemma filter_updateRows_other {A} (P Q : A → Prop)
    `{∀ x, Decision (P x)} `{∀ x, Decision (Q x)} (f : A → A) (l : list A) :
  (∀ x, P x → ¬ Q x ∧ ¬ Q (f x)) →
  filter Q (updateRows P f l) = filter Q l.
Proof.
  intros Hf. unfold updateRows. induction l as [|x l IH]; [done|].
  rewrite fmap_cons, !filter_cons, IH.
  destruct (decide (P x)) as [HP|HP]; [|done].
  destruct (Hf x HP) as [HQ HQf].
  by rewrite !decide_False.
Qed.

Lemma filter_updateRows_same {A} (P Q : A → Prop)
    `{∀ x, Decision (P x)} `{∀ x, Decision (Q x)} (f : A → A) (l : list A) :
  (∀ x, Q (f x) ↔ Q x) →
  filter Q (updateRows P f l) = updateRows P f (filter Q l).
Proof.
  intros Hf. unfold updateRows. induction l as [|x l IH]; [done|].
  rewrite fmap_cons, !filter_cons, IH.
  destruct (decide (P x)) as [HP|HP].
  - destruct (decide (Q x)) as [HQ|HQ].
    + rewrite decide_True by (by apply Hf). by rewrite fmap_cons, decide_True.
    + rewrite decide_False; [done|]. by rewrite Hf.
  - destruct (decide (Q x)); [|done]. by rewrite fmap_cons, decide_False.
Qed.

Lemma findRow_updateRows {A} (P : A → Prop) `{∀ x, Decision (P x)} (f : A → A) (l : list A) :
  (∀ x, P (f x) ↔ P x) →
  findRow P (updateRows P f l) = f <$> findRow P l.
Proof.
  intros Hf. unfold findRow. rewrite filter_updateRows_same by done.
  destruct (filter P l) as [|x k] eqn:E; [done|]. simpl.
  rewrite decide_True; [done|].
  assert (Hx : x ∈ filter P l) by (rewrite E; left).
  by apply list_elem_of_filter in Hx as [? _].
Qed.

Lemma length_updateRows {A} (P : A → Prop) `{∀ x, Decision (P x)} (f : A → A) (l : list A) :
  length (updateRows P f l) = length l.
Proof. unfold updateRows. apply length_fmap. Qed.

Lemma length_filter_split {A} (P Q : A → Prop)
    `{∀ x, Decision (P x)} `{∀ x, Decision (Q x)} (l : list A) :
  length (filter P l) =
  length (filter (λ x, P x ∧ Q x) l) + length (filter (λ x, P x ∧ ¬ Q x) l).
Proof.
  induction l as [|x l IH]; [done|]. rewrite !filter_cons.
  destruct (decide (P x)) as [HP|HP]; destruct (decide (Q x)) as [HQ|HQ].
  - rewrite decide_True, decide_False by tauto. simpl. lia.
  - rewrite decide_False, decide_True by tauto. simpl. lia.
  - by rewrite !decide_False by tauto.
  - by rewrite !decide_False by tauto.
Qed.

(** ** Ordering *)

Lemma insertOrdered_Permutation {A} (R : relation A) `{∀ x y, Decision (R x y)}
    (x : A) (l : list A) :
  insertOrdered R x l ≡ₚ x :: l.
Proof.
  induction l as [|y l IH]; simpl; [done|].
  destruct (decide (R x y)); [done|]. rewrite IH. apply Permutation_swap.
Qed.

Lemma orderBy_Permutation {A} (R : relation A) `{∀ x y, Decision (R x y)} (l : list A) :
  orderBy R l ≡ₚ l.
Proof.
  induction l as [|x l IH]; simpl; [done|].
  rewrite insertOrdered_Permutation. by f_equiv.
Qed.

Lemma StronglySorted_insertOrdered {A} (R : relation A) `{∀ x y, Decision (R x y)}
    `{!Transitive R, !Total R} (x : A) (l : list A) :
  StronglySorted R l → StronglySorted R (insertOrdered R x l).
Proof.
  induction 1 as [|y l Hl IH Hy]; simpl.
  - by repeat constructor.
  - destruct (decide (R x y)) as [Hxy|Hxy].
    + constructor; [by constructor|]. constructor; [done|].
      eapply Forall_impl; [exact Hy|]. intros z Hz. by transitivity y.
    + constructor; [done|]. rewrite insertOrdered_Permutation.
      constructor; [|done]. by destruct (total R x y).
Qed.

Lemma StronglySorted_orderBy {A} (R : relation A) `{∀ x y, Decision (R x y)}
    `{!Transitive R, !Total R} (l : list A) :
  StronglySorted R (orderBy R l).
Proof.
  induction l as [|x l IH]; simpl; [constructor|].
  by apply StronglySorted_insertOrdered.
Qed.

(** ** Grouping *)

Lemma foldl_bucket_lookup (cs : list Rendered.t) (m : gmap string (list Rendered.t)) (k : string) :
  default [] (foldl bucket m cs !! k) = default [] (m !! k) ++ filter (childOf k) cs.
Proof.
  revert m. induction cs as [|c cs IH]; intros m; simpl.
  - by rewrite app_nil_r.
  - rewrite IH. unfold bucket at 1.
    destruct (whenTruthy (Rendered.parentCommentId c)) as [p|] eqn:Hp.
    + destruct (decide (p = k)) as [->|Hne].
      * rewrite lookup_insert_eq. simpl.
        rewrite filter_cons_True by exact Hp. by rewrite <- app_assoc.
      * rewrite lookup_insert_ne by done.
        rewrite filter_cons_False; [done|]. unfold childOf. congruence.
    + rewrite filter_cons_False; [done|]. unfold childOf. congruence.
Qed.

Lemma groupSubComments_spec (cs : list Rendered.t) :
  groupSubComments cs =
  (λ r, Grouped.mk r (filter (childOf (Rendered.id r)) cs))
    <$> filter (λ c, Rendered.parentCommentId c = None) cs.
Proof.
  unfold groupSubComments. apply list_fmap_ext. intros i r _.
  f_equal. by rewrite foldl_bucket_lookup, lookup_empty.
Qed.

(** ** Masking *)

Lemma hideDeletedComment_shownAs (c : CommentWithLiked.t) :
  shownAs (CommentWithUser.row (CommentWithLiked.comment c))
          (CommentWithUser.user (CommentWithLiked.comment c))
          (hideDeletedComment c) ∧
  Rendered.isLiked (hideDeletedComment c) = CommentWithLiked.isLiked c.
Proof.
  unfold shownAs, hideDeletedComment.
  destruct (Comment.deletedAt (CommentWithUser.row (CommentWithLiked.comment c)))
    as [d|] eqn:Hd; simpl; repeat split; done.
Qed.

(** C10. A comment whose parentCommentId is non-null but is not the id of
    a root comment (parentCommentId null) of the same list is dropped by
    [groupSubComments]: it is no top-level entry of the result and it is
    in no entry's subComments. *)
Theorem groupSubComments_drops_orphans
    (cs : list Rendered.t) (c : Rendered.t) (p : string)
    (Hin : c ∈ cs)
    (Hparent : Rendered.parentCommentId c = Some p)
    (Horphan : ∀ r, r ∈ cs → Rendered.parentCommentId r = None → Rendered.id r ≠ p) :
  ∀ g, g ∈ groupSubComments cs → Grouped.root g ≠ c ∧ c ∉ Grouped.subComments g.
Proof.
  intros g Hg. rewrite groupSubComments_spec in Hg.
  apply list_elem_of_fmap in Hg as (r & -> & Hr).
  apply list_elem_of_filter in Hr as [Hroot Hr]. simpl. split.
  - intros ->. congruence.
  - intros Hc. apply list_elem_of_filter in Hc as [Hchild _].
    unfold childOf in Hchild. rewrite Hparent in Hchild. simpl in Hchild.
    destruct (truthy p); [|done].
    injection Hchild as ->. by apply (Horphan r).
Qed.

Lemma groupSubComments_drops_orphans_witness :
  Forall (λ g, Grouped.root g ≠ sampleRendered "G" (Some "B1") 2 ∧
               sampleRendered "G" (Some "B1") 2 ∉ Grouped.subComments g)
    (groupSubComments [sampleRendered "A" None 0; sampleRendered "G" (Some "B1") 2]).
Proof.
  apply Forall_forall.
  apply (groupSubComments_drops_orphans _ _ "B1").
  - right. left.
  - reflexivity.
  - intros r Hr Hroot Hid.
    apply elem_of_cons in Hr as [->|Hr]; [discriminate Hid|].
    apply elem_of_cons in Hr as [->|Hr]; [discriminate Hroot|].
    by apply not_elem_of_nil in Hr.
Defined.

(** C5. [groupSubComments] keeps the comments with a null parentCommentId
    in their order and attaches to each the comments filed under its id,
    in their order.  For a post with the root comments A, B, C created in
    that order, B having the replies B1 and B2 and C being soft-deleted,
    [findComments] returns A with no subComments, B with [B1; B2], and C
    masked (empty text, isDeleted) with no subComments. *)
Theorem findComments_groups_example :
  (∀ cs, groupSubComments cs =
         (λ r, Grouped.mk r (filter (childOf (Rendered.id r)) cs))
           <$> filter (λ c, Rendered.parentCommentId c = None) cs) ∧
  fst (findComments "hello" None sampleStore) =
  Resolved
    [ Grouped.mk (listedLive "A" "a" "u1" "alice" None 0 1) [];
      Grouped.mk (listedLive "B" "b" "u2" "bob" None 0 2)
        [ listedLive "B1" "b1" "u1" "alice" (Some "B") 1 4;
          listedLive "B2" "b2" "u1" "alice" (Some "B") 1 5 ];
      Grouped.mk
        (Rendered.mk "C" "" None "p1" None 0 0 0 (Some 10%Z) 0 0
           (Author.mk None None) false true)
        [] ].
Proof.
  split; [exact groupSubComments_spec|]. by vm_compute.
Qed.

(** ** Direct lookup *)

Lemma findComment_run (commentId : string) (s : Store) :
  findComment commentId s =
  (match commentById s commentId with
   | None => Rejected (AppErrorException NotFound)
   | Some c =>
       if bool_decide (is_Some (Comment.deletedAt c))
       then Rejected (AppErrorException NotFound)
       else Resolved (CommentWithUser.mk c (includeUser (users s) (Comment.userId c)))
   end, s).
Proof.
  unfold findComment, bind, comment_findUnique, query, commentById.
  destruct (findRow _ (comments s)) as [c|]; simpl; [|done].
  by destruct (bool_decide _).
Qed.

(** The list a successful [findComments] returns, stage by stage. *)
Lemma findComments_run (slug : string) (userId : option string) (s : Store) (post : Post.t) :
  postBySlug s slug = Some post →
  ∃ likeOf : CommentWithUser.t → JsValue CommentLike.t,
    findComments slug userId s =
    (Resolved
       (groupSubComments
          (hideDeletedComments
             ((λ c, mergeCommentLikeMap c (likeOf c)) <$>
              ((λ c, CommentWithUser.mk c (includeUser (users s) (Comment.userId c))) <$>
               orderBy commentOrder
                 (filter (λ c, Comment.postId c = Post.id post) (comments s)))))), s).
Proof.
  unfold postBySlug. intros Hpost.
  unfold findComments, bind, post_findUnique_slug, query. rewrite Hpost.
  unfold comment_findMany, query, getCommentLikeMap, bind,
    commentLike_findMany, query, resolve.
  destruct (whenTruthy userId); eexists; reflexivity.
Qed.

(** C8. Direct lookup writes nothing.  It fails with NotFound exactly when
    no comment has the id or the comment with the id has its delete
    timestamp set; a live comment is returned, with its author.  A
    soft-deleted root comment, which direct lookup does not find, is
    still an entry, masked, of the list of its post. *)
Theorem findComment_NotFound_iff (commentId : string) (s : Store) :
  snd (findComment commentId s) = s ∧
  (fst (findComment commentId s) = Rejected (AppErrorException NotFound) ↔
     (∀ c, c ∈ comments s → Comment.id c ≠ commentId) ∨
     (∃ c, commentById s commentId = Some c ∧ is_Some (Comment.deletedAt c))) ∧
  (∀ c, commentById s commentId = Some c → Comment.deletedAt c = None →
     fst (findComment commentId s) =
     Resolved (CommentWithUser.mk c (includeUser (users s) (Comment.userId c)))) ∧
  (∀ c slug post viewer,
     commentById s commentId = Some c → is_Some (Comment.deletedAt c) →
     Comment.parentCommentId c = None →
     postBySlug s slug = Some post → Comment.postId c = Post.id post →
     ∃ gs g, fst (findComments slug viewer s) = Resolved gs ∧ g ∈ gs ∧
       Rendered.id (Grouped.root g) = commentId ∧
       Rendered.isDeleted (Grouped.root g) = true ∧
       Rendered.text (Grouped.root g) = "").
Proof.
  rewrite findComment_run. simpl. split; [done|]. split; [|split].
  - destruct (commentById s commentId) as [c|] eqn:Hc.
    + destruct (Comment.deletedAt c) as [d|] eqn:Hd; simpl.
      * split; [|done]. intros _. right. exists c. rewrite Hd. eauto.
      * split; [done|]. intros [Habs|(c' & Hc' & Hdel)].
        -- apply findRow_Some in Hc as [Hin Hid]. by destruct (Habs c Hin).
        -- injection Hc' as <-. rewrite Hd in Hdel. by destruct Hdel.
    + split; [|done]. intros _. left. intros c Hin.
      by apply (proj1 (findRow_None _ _) Hc).
  - intros c -> Hd. by rewrite Hd.
  - intros c slug post viewer Hc Hdel Hroot Hpost Hpid.
    destruct (findComments_run slug viewer s post Hpost) as [likeOf Hrun].
    rewrite Hrun. simpl. apply findRow_Some in Hc as [Hin Hid].
    set (wu := CommentWithUser.mk c (includeUser (users s) (Comment.userId c))).
    set (r := hideDeletedComment (mergeCommentLikeMap wu (likeOf wu))).
    assert (Hr : Rendered.id r = commentId ∧ Rendered.isDeleted r = true ∧
                 Rendered.text r = "" ∧ Rendered.parentCommentId r = None).
    { subst r wu. unfold hideDeletedComment. simpl.
      destruct Hdel as [d ->]. simpl. by rewrite Hid, Hroot. }
    destruct Hr as (Hrid & Hrdel & Hrtext & Hrroot).
    match goal with |- context [groupSubComments ?l] => set (cs := l) end.
    exists (groupSubComments cs), (Grouped.mk r (filter (childOf (Rendered.id r)) cs)).
    split; [reflexivity|]. split; [|done].
    rewrite groupSubComments_spec.
    apply list_elem_of_fmap. exists r. split; [done|].
    apply list_elem_of_filter. split; [done|].
    subst cs. unfold hideDeletedComments.
    apply (list_elem_of_fmap_2 hideDeletedComment).
    apply (list_elem_of_fmap_2 (λ c, mergeCommentLikeMap c (likeOf c))).
    apply (list_elem_of_fmap_2
             (λ c, CommentWithUser.mk c (includeUser (users s) (Comment.userId c)))).
    rewrite orderBy_Permutation. by apply list_elem_of_filter.
Qed.

(** ** Writing comments *)

Lemma whenTruthy_Some (id : string) : id ≠ "" → whenTruthy (Some id) = Some id.
Proof. intros Hne. unfold whenTruthy, truthy. by rewrite bool_decide_true. Qed.

Lemma comment_create_fresh (row : Comment.t) (s : Store) :
  commentById s (Comment.id row) = None →
  comment_create row s = (Resolved row, set_comments (λ l, l ++ [row]) s).
Proof. unfold commentById, comment_create. by intros ->. Qed.

Lemma postStats_update_found (postId : string) (data : PostStats.t → PostStats.t)
    (s : Store) (st : PostStats.t) :
  statsOf s postId = Some st →
  postStats_update postId data s =
  (Resolved (data st),
   set_postStats (updateRows (λ st, PostStats.postId st = postId) data) s).
Proof. unfold statsOf, postStats_update. by intros ->. Qed.

Lemma updatePostCommentsCount_found (postId : string) (s : Store) (st : PostStats.t) :
  statsOf s postId = Some st →
  updatePostCommentsCount postId s =
  (Resolved (countRows (λ c, Comment.postId c = postId) (comments s)),
   set_postStats
     (updateRows (λ st, PostStats.postId st = postId)
        (withCommentsCount (countRows (λ c, Comment.postId c = postId) (comments s)))) s).
Proof.
  intros Hst. unfold updatePostCommentsCount, bind, comment_count, query, resolve.
  by rewrite (postStats_update_found _ _ _ _ Hst).
Qed.

Lemma updatePostCommentsCount_Resolved (postId : string) (s s' : Store) (n : Z) :
  updatePostCommentsCount postId s = (Resolved n, s') →
  comments s' = comments s ∧
  ∃ st, statsOf s' postId = Some st ∧
        PostStats.commentsCount st = countRows (λ c, Comment.postId c = postId) (comments s).
Proof.
  intros Hrun. destruct (statsOf s postId) as [st|] eqn:Hst.
  - rewrite (updatePostCommentsCount_found _ _ _ Hst) in Hrun.
    injection Hrun as <- <-. split; [done|].
    exists (withCommentsCount
              (countRows (λ c, Comment.postId c = postId) (comments s)) st).
    split; [|done].
    unfold statsOf in *. cbn [postStats set_postStats].
    rewrite findRow_updateRows by done. by rewrite Hst.
  - unfold updatePostCommentsCount, bind, comment_count, query,
      postStats_update in Hrun.
    unfold statsOf in Hst. simpl in Hrun. by rewrite Hst in Hrun.
Qed.

Section CommentWrites.

Variable touch : Z → Z → Z.

Lemma comment_update_found (env : Env.t) (id : string) (data : Comment.t → Comment.t)
    (s : Store) (c : Comment.t) :
  commentById s id = Some c →
  comment_update touch env id data s =
  (Resolved (withUpdatedAt (touch (Env.now env) (Comment.updatedAt c)) (data c)),
   set_comments
     (updateRows (λ c, Comment.id c = id)
        (λ c, withUpdatedAt (touch (Env.now env) (Comment.updatedAt c)) (data c))) s).
Proof. unfold commentById, comment_update. by intros ->. Qed.


(** C7. After a call of [createComment] that returns, the post's stored
    commentsCount is the number of all comment rows of the post: the
    soft-deleted ones and the live ones together. *)
Theorem createComment_commentsCount
    (env : Env.t) (userId : string) (dto : CreateCommentDto.t)
    (s s' : Store) (c : Comment.t)
    (Hrun : createComment touch env userId dto s = (Resolved c, s')) :
  let onPost := λ c, Comment.postId c = CreateCommentDto.postId dto in
  ∃ st, statsOf s' (CreateCommentDto.postId dto) = Some st ∧
    PostStats.commentsCount st = Z.of_nat (length (filter onPost (comments s'))) ∧
    PostStats.commentsCount st =
      (Z.of_nat (length (filter (λ c, onPost c ∧ is_Some (Comment.deletedAt c)) (comments s')))
       + Z.of_nat (length (filter (λ c, onPost c ∧ ¬ is_Some (Comment.deletedAt c))
                             (comments s'))))%Z.
Proof.
  intros onPost. unfold createComment in Hrun.
  apply bind_Resolved in Hrun as (parent & s1 & _ & Hrun).
  destruct (match _ <$> parent with Some l => bool_decide (2 ≤ l)%Z | None => false end);
    [discriminate|].
  apply bind_Resolved in Hrun as (created & s2 & _ & Hrun).
  apply bind_Resolved in Hrun as (? & s3 & _ & Hrun).
  apply bind_Resolved in Hrun as (n & s4 & Hcount & Hrun).
  injection Hrun as _ <-.
  apply updatePostCommentsCount_Resolved in Hcount as (Hsame & st & Hst & Hn).
  exists st. split; [done|]. unfold countRows in Hn. rewrite <- Hsame in Hn.
  split; [done|]. rewrite Hn.
  rewrite (length_filter_split onPost (λ c, is_Some (Comment.deletedAt c))). lia.
Qed.

(** C9. [deleteComment] on a live comment: a requester who is not the
    author gets Unauthorized and the store is as it was; for the author
    the comment's delete timestamp is set, its id, text, author, post,
    parentCommentId, level, likes, subCommentsCount and creation time
    are as they were, every other comment and every other table (the
    post's commentsCount with them) is as it was. *)
Theorem deleteComment_frame
    (env : Env.t) (userId commentId : string) (s : Store) (c : Comment.t)
    (Hc : commentById s commentId = Some c)
    (Hlive : Comment.deletedAt c = None) :
  (Comment.userId c ≠ userId →
   deleteComment touch env userId commentId s =
   (Rejected (AppErrorException Unauthorized), s)) ∧
  (Comment.userId c = userId →
   ∃ c' s', deleteComment touch env userId commentId s = (Resolved c', s') ∧
     commentById s' commentId = Some c' ∧
     Comment.deletedAt c' = Some (Env.now env) ∧
     Comment.id c' = Comment.id c ∧
     Comment.text c' = Comment.text c ∧
     Comment.userId c' = Comment.userId c ∧
     Comment.postId c' = Comment.postId c ∧
     Comment.parentCommentId c' = Comment.parentCommentId c ∧
     Comment.level c' = Comment.level c ∧
     Comment.likes c' = Comment.likes c ∧
     Comment.subCommentsCount c' = Comment.subCommentsCount c ∧
     Comment.createdAt c' = Comment.createdAt c ∧
     (∀ id, id ≠ commentId → commentById s' id = commentById s id) ∧
     length (comments s') = length (comments s) ∧
     postStats s' = postStats s ∧ users s' = users s ∧ posts s' = posts s ∧
     postLikes s' = postLikes s ∧ commentLikes s' = commentLikes s).
Proof.
  unfold deleteComment, bind. rewrite findComment_run, Hc, Hlive.
  rewrite bool_decide_false by (by intros [? ?]). cbn [CommentWithUser.row].
  split; intros Hauthor.
  - by rewrite bool_decide_true.
  - rewrite bool_decide_false by (by intros ?).
    rewrite (comment_update_found _ _ _ _ _ Hc).
    eexists _, _. split; [reflexivity|].
    split.
    { unfold commentById in *. cbn [comments set_comments].
      rewrite findRow_updateRows by done. by rewrite Hc. }
    repeat split; try done.
    + intros id Hid. unfold commentById, findRow. cbn [comments set_comments].
      rewrite filter_updateRows_other; [done|].
      intros x Hx. simpl. split; congruence.
    + cbn [comments set_comments]. apply length_updateRows.
Qed.

End CommentWrites.


Lemma createComment_commentsCount_witness :
  ∃ st,
    statsOf (snd (createComment sampleTouch sampleEnv "u2" (sampleReplyTo "A") sampleStore))
      "p1" = Some st ∧
    PostStats.commentsCount st = 6%Z.
Proof.
  destruct (createComment sampleTouch sampleEnv "u2" (sampleReplyTo "A") sampleStore)
    as [[c|e] s'] eqn:Hrun; [|by vm_compute in Hrun].
  destruct (createComment_commentsCount _ _ _ _ _ _ _ Hrun) as (st & Hst & Hn & _).
  exists st. split; [done|]. rewrite Hn.
  vm_compute in Hrun. injection Hrun as _ <-. by vm_compute.
Defined.

Lemma deleteComment_frame_witness :
  deleteComment sampleTouch sampleEnv "u2" "A" sampleStore
  = (Rejected (AppErrorException Unauthorized), sampleStore) ∧
  ∃ c' s', deleteComment sampleTouch sampleEnv "u1" "A" sampleStore = (Resolved c', s') ∧
    Comment.deletedAt c' = Some 50%Z ∧ Comment.text c' = "a" ∧
    postStats s' = postStats sampleStore.
Proof.
  split.
  - apply (deleteComment_frame sampleTouch sampleEnv "u2" "A" sampleStore
             (sampleComment "A" "a" "u1" None 0 None 1) eq_refl eq_refl).
    done.
  - destruct (deleteComment_frame sampleTouch sampleEnv "u1" "A" sampleStore
                (sampleComment "A" "a" "u1" None 0 None 1) eq_refl eq_refl)
      as [_ Hok].
    destruct (Hok eq_refl)
      as (c' & s' & Hrun & _ & Hdel & _ & Htext & _ & _ & _ & _ & _ & _ & _ & _ & _ & Hst & _).
    by exists c', s'.
Defined.

Lemma findComment_NotFound_iff_witness :
  fst (findComment "C" sampleStore) = Rejected (AppErrorException NotFound) ∧
  ∃ gs g, fst (findComments "hello" None sampleStore) = Resolved gs ∧ g ∈ gs ∧
    Rendered.id (Grouped.root g) = "C" ∧ Rendered.isDeleted (Grouped.root g) = true.
Proof.
  destruct (findComment_NotFound_iff "C" sampleStore) as (_ & Hiff & _ & Hlist).
  split.
  - apply Hiff. right. exists (sampleComment "C" "c" "u2" None 0 (Some 10%Z) 3).
    split; [done|by eexists].
  - destruct (Hlist (sampleComment "C" "c" "u2" None 0 (Some 10%Z) 3) "hello" samplePost None
                eq_refl ltac:(by eexists) eq_refl eq_refl eq_refl)
      as (gs & g & Hrun & Hin & Hid & Hdel & _).
    by exists gs, g.
Defined.

(** ** Likes *)

Lemma findRow_eq {A} `{EqDecision A} (x : A) (l : list A) :
  findRow (λ y, y = x) l = if decide (x ∈ l) then Some x else None.
Proof.
  destruct (decide (x ∈ l)) as [Hin|Hin].
  - destruct (findRow (λ y, y = x) l) as [y|] eqn:E.
    + by apply findRow_Some in E as [_ ->].
    + exfalso. by apply (proj1 (findRow_None _ _) E x).
  - apply findRow_None. by intros y Hy ->.
Qed.

Lemma count_eq_NoDup {A} `{EqDecision A} (x : A) (l : list A) :
  NoDup l → x ∈ l → length (filter (λ y, y = x) l) = 1.
Proof.
  induction 1 as [|y l Hy Hnd IH]; intros Hin.
  - by apply not_elem_of_nil in Hin.
  - rewrite filter_cons. destruct (decide (y = x)) as [->|Hne].
    + simpl. f_equal. apply length_zero_iff_nil.
      destruct (filter (λ y, y = x) l) as [|z k] eqn:E; [done|].
      assert (Hz : z ∈ filter (λ y, y = x) l) by (rewrite E; left).
      apply list_elem_of_filter in Hz as [-> Hz]. done.
    + apply IH. apply elem_of_cons in Hin as [->|Hin]; done.
Qed.

Lemma count_eq_absent {A} `{EqDecision A} (x : A) (l : list A) :
  x ∉ l → length (filter (λ y, y = x) l) = 0.
Proof.
  intros Hx. apply length_zero_iff_nil.
  destruct (filter (λ y, y = x) l) as [|z k] eqn:E; [done|].
  assert (Hz : z ∈ filter (λ y, y = x) l) by (rewrite E; left).
  apply list_elem_of_filter in Hz as [-> Hz]. done.
Qed.

Lemma updatePostLikes_found (postId : string) (s : Store) (st : PostStats.t) :
  statsOf s postId = Some st →
  updatePostLikes postId s =
  (Resolved (withLikes (Z.of_nat (likeRecords s postId)) st),
   set_postStats
     (updateRows (λ st, PostStats.postId st = postId)
        (withLikes (Z.of_nat (likeRecords s postId)))) s).
Proof.
  intros Hst. unfold updatePostLikes, bind, postLike_count, query, resolve.
  by rewrite (postStats_update_found _ _ _ _ Hst).
Qed.

(** The store after the join table has been brought to [likes]. *)
Lemma updatePostLikes_after (postId : string) (s : Store) (st : PostStats.t) :
  statsOf s postId = Some st →
  ∃ st' s', updatePostLikes postId s = (Resolved st', s') ∧
    postLikes s' = postLikes s ∧
    statsOf s' postId = Some st' ∧
    PostStats.likes st' = Z.of_nat (likeRecords s' postId).
Proof.
  intros Hst. rewrite (updatePostLikes_found _ _ _ Hst).
  eexists _, _. split; [reflexivity|]. split; [done|]. split; [|done].
  unfold statsOf in *. cbn [postStats set_postStats].
  rewrite findRow_updateRows by done. by rewrite Hst.
Qed.

Lemma likePost_run (userId postId : string) (s : Store) :
  likePost userId postId s =
  updatePostLikes postId
    (if decide (PostLike.mk postId userId ∈ postLikes s) then s
     else set_postLikes (λ l, l ++ [PostLike.mk postId userId]) s).
Proof.
  unfold likePost, bind at 1 2, postLike_findUnique, query.
  rewrite findRow_eq. destruct (decide (_ ∈ postLikes s)) as [Hin|Hin].
  - unfold resolve at 1. unfold bind. by destruct (updatePostLikes postId s) as [[?|?] ?].
  - unfold bind at 1, postLike_create. rewrite findRow_eq, decide_False by done.
    unfold resolve at 1. unfold bind.
    by destruct (updatePostLikes postId _) as [[?|?] ?].
Qed.

Lemma unlikePost_run (userId postId : string) (s : Store) :
  unlikePost userId postId s =
  updatePostLikes postId
    (if decide (PostLike.mk postId userId ∈ postLikes s)
     then set_postLikes (filter (λ l, l ≠ PostLike.mk postId userId)) s
     else s).
Proof.
  unfold unlikePost, bind at 1 2, postLike_findUnique, query.
  rewrite findRow_eq. destruct (decide (_ ∈ postLikes s)) as [Hin|Hin].
  - unfold bind at 1, postLike_delete. rewrite findRow_eq, decide_True by done.
    unfold resolve at 1. unfold bind.
    by destruct (updatePostLikes postId _) as [[?|?] ?].
  - unfold resolve at 1. unfold bind. by destruct (updatePostLikes postId s) as [[?|?] ?].
Qed.

Lemma serveLikes_consistent (postId : string) (actions : list LikeAction) (s : Store) :
  is_Some (statsOf s postId) →
  actions ≠ [] ∨
    (∃ st, statsOf s postId = Some st ∧
           PostStats.likes st = Z.of_nat (likeRecords s postId)) →
  ∃ s', serveLikes postId actions s = (Resolved (), s') ∧
    ∃ st, statsOf s' postId = Some st ∧
          PostStats.likes st = Z.of_nat (likeRecords s' postId).
Proof.
  revert s. induction actions as [|a actions IH]; intros s Hst Hstart.
  - destruct Hstart as [?|Hcons]; [done|]. by exists s.
  - assert (Hstep : ∃ st' s1,
               (match a with
                | Like u => likePost u postId
                | Unlike u => unlikePost u postId
                end) s = (Resolved st', s1) ∧
               statsOf s1 postId = Some st' ∧
               PostStats.likes st' = Z.of_nat (likeRecords s1 postId)).
    { destruct Hst as [st Hst].
      destruct a as [u|u]; [rewrite likePost_run|rewrite unlikePost_run];
        destruct (decide (_ ∈ postLikes s));
        (edestruct updatePostLikes_after as (st' & s1 & Hrun & _ & Hst1 & Hlikes);
         [|exists st', s1; split; [exact Hrun|done]]); exact Hst. }
    destruct Hstep as (st' & s1 & Hrun & Hst1 & Hlikes).
    destruct (IH s1) as (s' & Hrest & Hfinal); [by eexists|right; by eexists|].
    exists s'. split; [|done].
    destruct a; simpl; by rewrite (bind_run _ _ _ _ _ Hrun).
Qed.

Lemma likePost_after (userId postId : string) (s : Store) :
  is_Some (statsOf s postId) →
  ∃ st' s', likePost userId postId s = (Resolved st', s') ∧
    postLikes s' =
      (if decide (PostLike.mk postId userId ∈ postLikes s) then postLikes s
       else postLikes s ++ [PostLike.mk postId userId]) ∧
    statsOf s' postId = Some st' ∧
    PostStats.likes st' = Z.of_nat (likeRecords s' postId).
Proof.
  intros [st Hst]. rewrite likePost_run.
  destruct (decide (_ ∈ postLikes s)).
  - destruct (updatePostLikes_after postId s st Hst) as (st' & s' & ? & ? & ? & ?).
    by exists st', s'.
  - destruct (updatePostLikes_after postId
                (set_postLikes (λ l, l ++ [PostLike.mk postId userId]) s) st Hst)
      as (st' & s' & ? & ? & ? & ?).
    by exists st', s'.
Qed.

Lemma unlikePost_after (userId postId : string) (s : Store) :
  is_Some (statsOf s postId) →
  ∃ st' s', unlikePost userId postId s = (Resolved st', s') ∧
    postLikes s' =
      (if decide (PostLike.mk postId userId ∈ postLikes s)
       then filter (λ l, l ≠ PostLike.mk postId userId) (postLikes s)
       else postLikes s) ∧
    statsOf s' postId = Some st' ∧
    PostStats.likes st' = Z.of_nat (likeRecords s' postId).
Proof.
  intros [st Hst]. rewrite unlikePost_run.
  destruct (decide (_ ∈ postLikes s)).
  - destruct (updatePostLikes_after postId
                (set_postLikes (filter (λ l, l ≠ PostLike.mk postId userId)) s) st Hst)
      as (st' & s' & ? & ? & ? & ?).
    by exists st', s'.
  - destruct (updatePostLikes_after postId s st Hst) as (st' & s' & ? & ? & ? & ?).
    by exists st', s'.
Qed.

(** C2. On a post that has its statistics record, with a join table
    holding no pair twice: liking twice by the same user leaves exactly
    one join record of the pair, and the second call leaves the join
    table and [likes] as the first call left them; unliking twice leaves
    no join record of the pair, the second call changing nothing either;
    and after any sequence of like and unlike calls on the post, by
    whatever users, the stored [likes] is the number of join records of
    the post (after at least one call whatever it was before; after no
    call if it was so before). *)
Theorem likes_idempotent_and_recomputed
    (postId userId : string) (actions : list LikeAction) (s : Store)
    (Hstats : is_Some (statsOf s postId))
    (Hunique : NoDup (postLikes s))
    (Hstart : actions ≠ [] ∨
              ∃ st, statsOf s postId = Some st ∧
                    PostStats.likes st = Z.of_nat (likeRecords s postId)) :
  (∃ st1 s1 st2 s2,
     likePost userId postId s = (Resolved st1, s1) ∧
     likePost userId postId s1 = (Resolved st2, s2) ∧
     joinRecords s1 postId userId = 1 ∧ joinRecords s2 postId userId = 1 ∧
     postLikes s2 = postLikes s1 ∧
     PostStats.likes st2 = PostStats.likes st1 ∧
     statsOf s2 postId = Some st2) ∧
  (∃ st1 s1 st2 s2,
     unlikePost userId postId s = (Resolved st1, s1) ∧
     unlikePost userId postId s1 = (Resolved st2, s2) ∧
     joinRecords s1 postId userId = 0 ∧ joinRecords s2 postId userId = 0 ∧
     postLikes s2 = postLikes s1 ∧
     PostStats.likes st2 = PostStats.likes st1 ∧
     statsOf s2 postId = Some st2) ∧
  (∃ s', serveLikes postId actions s = (Resolved (), s') ∧
     ∃ st, statsOf s' postId = Some st ∧
           PostStats.likes st = Z.of_nat (likeRecords s' postId)).
Proof.
  split; [|split].
  - destruct (likePost_after userId postId s Hstats)
      as (st1 & s1 & Hrun1 & Hjoin1 & Hst1 & Hlikes1).
    assert (Hin1 : PostLike.mk postId userId ∈ postLikes s1).
    { rewrite Hjoin1. destruct (decide (_ ∈ postLikes s)); [done|].
      apply elem_of_app. right. left. }
    assert (Hone : joinRecords s1 postId userId = 1).
    { unfold joinRecords. rewrite Hjoin1.
      destruct (decide (_ ∈ postLikes s)) as [Hin|Hin].
      - by apply count_eq_NoDup.
      - rewrite filter_app, length_app, count_eq_absent by done.
        by rewrite filter_cons_True. }
    destruct (likePost_after userId postId s1 ltac:(by eexists))
      as (st2 & s2 & Hrun2 & Hjoin2 & Hst2 & Hlikes2).
    rewrite decide_True in Hjoin2 by done.
    exists st1, s1, st2, s2. repeat split; try done.
    + unfold joinRecords in *. by rewrite Hjoin2.
    + rewrite Hlikes2, Hlikes1. unfold likeRecords. by rewrite Hjoin2.
  - destruct (unlikePost_after userId postId s Hstats)
      as (st1 & s1 & Hrun1 & Hjoin1 & Hst1 & Hlikes1).
    assert (Hout1 : PostLike.mk postId userId ∉ postLikes s1).
    { rewrite Hjoin1. destruct (decide (_ ∈ postLikes s)); [|done].
      intros Hin. by apply list_elem_of_filter in Hin as [? _]. }
    destruct (unlikePost_after userId postId s1 ltac:(by eexists))
      as (st2 & s2 & Hrun2 & Hjoin2 & Hst2 & Hlikes2).
    rewrite decide_False in Hjoin2 by done.
    exists st1, s1, st2, s2. repeat split; try done.
    + unfold joinRecords. by apply count_eq_absent.
    + unfold joinRecords. rewrite Hjoin2. by apply count_eq_absent.
    + rewrite Hlikes2, Hlikes1. unfold likeRecords. by rewrite Hjoin2.
  - by apply serveLikes_consistent.
Qed.

Lemma likes_idempotent_and_recomputed_witness :
  ∃ s', serveLikes "p1" [Like "u1"; Like "u2"; Unlike "u1"; Like "u1"; Like "u1"] sampleStore
        = (Resolved (), s') ∧
    ∃ st, statsOf s' "p1" = Some st ∧ PostStats.likes st = 2%Z ∧ likeRecords s' "p1" = 2.
Proof.
  destruct (likes_idempotent_and_recomputed "p1" "u1"
              [Like "u1"; Like "u2"; Unlike "u1"; Like "u1"; Like "u1"] sampleStore
              ltac:(by eexists) ltac:(constructor) ltac:(by left))
    as (_ & _ & s' & Hrun & st & Hst & Hlikes).
  exists s'. split; [done|]. exists st. split; [done|].
  vm_compute in Hrun. injection Hrun as <-. rewrite Hlikes. by vm_compute.
Defined.

(** ** Creating posts *)

Section PostWrites.

Variable slugify : string → string.






End PostWrites.



(** ** Paging through the posts *)

Lemma fromCursor_middle (l1 l2 : list Post.t) (c : Post.t) :
  Post.id c ∉ Post.id <$> l1 →
  fromCursor (Post.id c) (l1 ++ c :: l2) = c :: l2.
Proof.
  induction l1 as [|x l1 IH]; intros Hnotin; simpl.
  - by rewrite decide_True.
  - rewrite fmap_cons in Hnotin. apply not_elem_of_cons in Hnotin as [Hne Hnotin].
    rewrite decide_False by done. by apply IH.
Qed.

Lemma fromCursor_suffix (L l1 R : list Post.t) (c : Post.t) (n : nat) :
  NoDup (Post.id <$> L) → L = l1 ++ R → R !! n = Some c →
  fromCursor (Post.id c) L = drop n R.
Proof.
  intros Hnd -> Hc.
  rewrite <- (take_drop_middle R n c Hc) in Hnd |- * at 1.
  rewrite app_assoc in Hnd |- *.
  rewrite fromCursor_middle.
  - symmetry. by apply drop_S.
  - rewrite fmap_app in Hnd. apply NoDup_app in Hnd as (_ & Hdisj & _).
    intros Hin. apply (Hdisj _ Hin). rewrite fmap_cons. left.
Qed.

Lemma findPostsByQuries_run (cursor viewer : option string) (s : Store) :
  ∃ page, findPostsByQuries cursor viewer s = (Resolved page, s) ∧
    rowsOf (Page.posts page) = take 20 (drop 1 (cursorRows s cursor)) ∧
    Page.nextCursor page = Post.id <$> cursorRows s cursor !! 20.
Proof.
  assert (Hshape : ∃ likeOf : PostWithStats.t → JsValue PostLike.t,
    findPostsByQuries cursor viewer s =
    (Resolved
       (Page.mk
          ((λ post, mergePostLiked post (likeOf post)) <$>
           (includePost s <$> take 20 (drop 1 (cursorRows s cursor))))
          (postId_of <$>
           ((λ post, mergePostLiked post (likeOf post)) <$>
            (includePost s <$> take 20 (drop 1 (cursorRows s cursor)))) !! 19)), s)).
  { unfold findPostsByQuries, bind, post_findMany, query, getPostLikedMap, bind,
      postLike_findMany, query, resolve, cursorRows, orderedPosts.
    destruct (whenTruthy viewer); eexists; reflexivity. }
  destruct Hshape as [likeOf ->]. eexists. split; [reflexivity|].
  cbn [Page.posts Page.nextCursor]. split.
  - unfold rowsOf. rewrite <- !list_fmap_compose. apply list_fmap_id.
  - rewrite !list_lookup_fmap, lookup_take_lt, lookup_drop by lia.
    change (1 + 19) with 20. by destruct (cursorRows s cursor !! 20).
Qed.

Lemma listAllPages_from (viewer : option string) (s : Store) (fuel : nat) :
  NoDup (Post.id <$> orderedPosts s) →
  (∀ p, p ∈ orderedPosts s → Post.id p ≠ "") →
  ∀ (cursor : option string) (l1 : list Post.t),
    orderedPosts s = l1 ++ cursorRows s cursor →
    length (cursorRows s cursor) < 20 * fuel →
    ∃ l, listAllPages fuel cursor viewer s = (Resolved (Some l), s) ∧
         rowsOf l = drop 1 (cursorRows s cursor).
Proof.
  intros Hnd Hids. induction fuel as [|fuel IH]; intros cursor l1 Hsuffix Hfuel; [lia|].
  destruct (findPostsByQuries_run cursor viewer s) as (page & Hrun & Hrows & Hnext).
  cbn [listAllPages]. rewrite (bind_run _ _ _ _ _ Hrun).
  set (R := cursorRows s cursor) in *.
  rewrite Hnext. destruct (R !! 20) as [c|] eqn:Hc; cbn [fmap option_fmap option_map].
  - assert (Hcin : c ∈ orderedPosts s).
    { rewrite Hsuffix. apply elem_of_app. right. by eapply list_elem_of_lookup_2. }
    assert (Hrows' : cursorRows s (Some (Post.id c)) = drop 20 R).
    { unfold cursorRows. rewrite whenTruthy_Some by (by apply Hids).
      by apply (fromCursor_suffix _ l1 R c 20). }
    destruct (IH (Some (Post.id c)) (l1 ++ take 20 R)) as (rest & Hrest & Hrestrows).
    + rewrite Hrows', <- app_assoc, take_drop. exact Hsuffix.
    + rewrite Hrows', length_drop. apply lookup_lt_Some in Hc. lia.
    + rewrite (bind_run _ _ _ _ _ Hrest). unfold resolve.
      eexists. split; [reflexivity|].
      unfold rowsOf in *. rewrite fmap_app, Hrows, Hrestrows, Hrows'.
      rewrite drop_drop.
      transitivity (take 20 (drop 1 R) ++ drop 20 (drop 1 R)); [|apply take_drop].
      by rewrite drop_drop.
  - unfold resolve. eexists. split; [reflexivity|].
    rewrite Hrows. apply take_ge. rewrite length_drop.
    apply lookup_ge_None in Hc. lia.
Qed.

(** C1 against the code.  With distinct, non-empty post ids, paging from
    no cursor through every returned [nextCursor] ends and returns the
    posts newest first, each once, but without the newest post: the
    result is the ordered list less its first row, because the one row
    skipped to pass over the cursor row is skipped on the first request
    too, where there is no cursor row. *)
Theorem listAllPages_omits_newest
    (viewer : option string) (s : Store) (fuel : nat)
    (Hunique : NoDup (Post.id <$> posts s))
    (Hids : ∀ p, p ∈ posts s → Post.id p ≠ "")
    (Hfuel : length (posts s) < 20 * fuel) :
  ∃ l, listAllPages fuel None viewer s = (Resolved (Some l), s) ∧
    rowsOf l = drop 1 (orderedPosts s) ∧
    ∀ newest, head (orderedPosts s) = Some newest → newest ∉ rowsOf l.
Proof.
  assert (Hperm : orderedPosts s ≡ₚ posts s) by apply orderBy_Permutation.
  assert (Hnd : NoDup (Post.id <$> orderedPosts s)) by (by rewrite Hperm).
  destruct (listAllPages_from viewer s fuel Hnd) with (cursor := @None string) (l1 := @nil Post.t)
    as (l & Hrun & Hrows).
  - intros p Hp. apply Hids. by rewrite <- Hperm.
  - done.
  - unfold cursorRows. simpl. by rewrite Hperm.
  - exists l. split; [done|]. split; [done|].
    intros newest Hhead. rewrite Hrows. unfold cursorRows. simpl.
    apply NoDup_fmap_1 in Hnd.
    destruct (orderedPosts s) as [|x L]; [done|].
    injection Hhead as ->. simpl. rewrite drop_0.
    by apply NoDup_cons in Hnd as [? _].
Qed.

Lemma listAllPages_omits_newest_witness :
  ∃ l, listAllPages 1 None None threePosts = (Resolved (Some l), threePosts) ∧
       Post.id <$> rowsOf l = ["p2"; "p1"].
Proof.
  destruct (listAllPages_omits_newest None threePosts 1) as (l & Hrun & Hrows & _).
  - apply (bool_decide_unpack _). by vm_compute.
  - intros p Hp.
    repeat (apply elem_of_cons in Hp as [->|Hp]; [done|]).
    by apply not_elem_of_nil in Hp.
  - simpl. lia.
  - exists l. split; [done|]. rewrite Hrows. by vm_compute.
Defined.

(** * Further properties *)

(** ** Likes on comments *)

Section CommentLikeProperties.

Variable touch : Z → Z → Z.

Lemma updateCommentLikes_found (env : Env.t) (commentId : string) (s : Store) (c : Comment.t) :
  commentById s commentId = Some c →
  ∃ c' s', updateCommentLikes touch env commentId s
           = (Resolved (Z.of_nat (commentLikeRecords s commentId)), s') ∧
    commentLikes s' = commentLikes s ∧
    commentById s' commentId = Some c' ∧
    Comment.likes c' = Z.of_nat (commentLikeRecords s commentId) ∧
    Comment.deletedAt c' = Comment.deletedAt c ∧
    Comment.text c' = Comment.text c.
Proof.
  intros Hc. unfold updateCommentLikes, bind, commentLike_count, query, resolve.
  rewrite (comment_update_found _ _ _ _ _ _ Hc).
  exists (withUpdatedAt (touch (Env.now env) (Comment.updatedAt c))
            (withCommentLikes (Z.of_nat (commentLikeRecords s commentId)) c)).
  eexists. split; [reflexivity|]. split; [done|]. split; [|done].
  unfold commentById in *. cbn [comments set_comments].
  rewrite findRow_updateRows by done. by rewrite Hc.
Qed.

Lemma likeComment_run (env : Env.t) (userId commentId : string) (s : Store) :
  likeComment touch env userId commentId s =
  updateCommentLikes touch env commentId
    (if decide (CommentLike.mk commentId userId ∈ commentLikes s) then s
     else set_commentLikes (λ l, l ++ [CommentLike.mk commentId userId]) s).
Proof.
  unfold likeComment, bind at 1 2, commentLike_findUnique, query.
  rewrite findRow_eq. destruct (decide (_ ∈ commentLikes s)) as [Hin|Hin].
  - unfold resolve at 1. unfold bind.
    by destruct (updateCommentLikes touch env commentId s) as [[?|?] ?].
  - unfold bind at 1, commentLike_create. rewrite findRow_eq, decide_False by done.
    unfold resolve at 1. unfold bind.
    by destruct (updateCommentLikes touch env commentId _) as [[?|?] ?].
Qed.

Lemma unlikeComment_run (env : Env.t) (userId commentId : string) (s : Store) :
  unlikeComment touch env userId commentId s =
  updateCommentLikes touch env commentId
    (if decide (CommentLike.mk commentId userId ∈ commentLikes s)
     then set_commentLikes (filter (λ l, l ≠ CommentLike.mk commentId userId)) s
     else s).
Proof.
  unfold unlikeComment, bind at 1 2, commentLike_findUnique, query.
  rewrite findRow_eq. destruct (decide (_ ∈ commentLikes s)) as [Hin|Hin].
  - unfold bind at 1, commentLike_delete. rewrite findRow_eq, decide_True by done.
    unfold resolve at 1. unfold bind.
    by destruct (updateCommentLikes touch env commentId _) as [[?|?] ?].
  - unfold resolve at 1. unfold bind.
    by destruct (updateCommentLikes touch env commentId s) as [[?|?] ?].
Qed.

(** X1. [likeComment] on a stored comment, soft-deleted or not (the
    delete timestamp is not looked at): the call returns the number of
    join records of the comment and stores it as the comment's [likes];
    exactly one join record of the pair is left; text and delete
    timestamp stay; a second call returns the same number and leaves the
    join table as it is. *)
Theorem likeComment_recomputes
    (env : Env.t) (userId commentId : string) (s : Store) (c : Comment.t)
    (Hc : commentById s commentId = Some c)
    (Hunique : NoDup (commentLikes s)) :
  ∃ n s' c',
    likeComment touch env userId commentId s = (Resolved n, s') ∧
    n = Z.of_nat (commentLikeRecords s' commentId) ∧
    commentJoinRecords s' commentId userId = 1 ∧
    commentById s' commentId = Some c' ∧ Comment.likes c' = n ∧
    Comment.deletedAt c' = Comment.deletedAt c ∧ Comment.text c' = Comment.text c ∧
    ∃ s'', likeComment touch env userId commentId s' = (Resolved n, s'') ∧
           commentLikes s'' = commentLikes s'.
Proof.
  rewrite likeComment_run.
  set (s1 := if decide (_ ∈ commentLikes s) then s else _).
  assert (Hc1 : commentById s1 commentId = Some c).
  { subst s1. by destruct (decide _). }
  assert (Hin1 : CommentLike.mk commentId userId ∈ commentLikes s1).
  { subst s1. destruct (decide _); [done|]. simpl. apply elem_of_app. right. left. }
  assert (Hone : commentJoinRecords s1 commentId userId = 1).
  { subst s1. unfold commentJoinRecords. destruct (decide _) as [Hin|Hin].
    - by apply count_eq_NoDup.
    - simpl. rewrite filter_app, length_app, count_eq_absent by done.
      by rewrite filter_cons_True. }
  destruct (updateCommentLikes_found env commentId s1 c Hc1)
    as (c' & s' & Hrun & Hjoin & Hc' & Hlikes & Hdel & Htext).
  exists (Z.of_nat (commentLikeRecords s1 commentId)), s', c'.
  split; [done|].
  assert (Hrec : commentLikeRecords s' commentId = commentLikeRecords s1 commentId)
    by (unfold commentLikeRecords; by rewrite Hjoin).
  split; [by rewrite Hrec|].
  split; [unfold commentJoinRecords in *; by rewrite Hjoin|].
  repeat (split; [done|]).
  rewrite likeComment_run, decide_True by (by rewrite Hjoin).
  destruct (updateCommentLikes_found env commentId s' c' Hc')
    as (c'' & s'' & Hrun2 & Hjoin2 & _).
  exists s''. rewrite Hrec in Hrun2. done.
Qed.

(** X2. [unlikeComment] on a stored comment: the call returns the number
    of join records of the comment left and stores it as the comment's
    [likes]; no join record of the pair is left, the join records of
    other pairs stay; a second call returns the same number and leaves
    the join table as it is. *)
Theorem unlikeComment_recomputes
    (env : Env.t) (userId commentId : string) (s : Store) (c : Comment.t)
    (Hc : commentById s commentId = Some c) :
  ∃ n s' c',
    unlikeComment touch env userId commentId s = (Resolved n, s') ∧
    n = Z.of_nat (commentLikeRecords s' commentId) ∧
    commentJoinRecords s' commentId userId = 0 ∧
    (∀ l, l ≠ CommentLike.mk commentId userId → l ∈ commentLikes s' ↔ l ∈ commentLikes s) ∧
    commentById s' commentId = Some c' ∧ Comment.likes c' = n ∧
    ∃ s'', unlikeComment touch env userId commentId s' = (Resolved n, s'') ∧
           commentLikes s'' = commentLikes s'.
Proof.
  rewrite unlikeComment_run.
  set (s1 := if decide (_ ∈ commentLikes s) then _ else s).
  assert (Hc1 : commentById s1 commentId = Some c).
  { subst s1. by destruct (decide _). }
  assert (Hout1 : CommentLike.mk commentId userId ∉ commentLikes s1).
  { subst s1. destruct (decide _); [|done]. simpl.
    intros Hin. by apply list_elem_of_filter in Hin as [? _]. }
  assert (Hothers : ∀ l, l ≠ CommentLike.mk commentId userId →
                         l ∈ commentLikes s1 ↔ l ∈ commentLikes s).
  { intros l Hl. subst s1. destruct (decide _); [|done]. simpl.
    rewrite list_elem_of_filter. tauto. }
  destruct (updateCommentLikes_found env commentId s1 c Hc1)
    as (c' & s' & Hrun & Hjoin & Hc' & Hlikes & _).
  exists (Z.of_nat (commentLikeRecords s1 commentId)), s', c'.
  split; [done|].
  assert (Hrec : commentLikeRecords s' commentId = commentLikeRecords s1 commentId)
    by (unfold commentLikeRecords; by rewrite Hjoin).
  split; [by rewrite Hrec|].
  split; [unfold commentJoinRecords; rewrite Hjoin; by apply count_eq_absent|].
  split; [by rewrite Hjoin|].
  repeat (split; [done|]).
  rewrite unlikeComment_run, decide_False by (by rewrite Hjoin).
  destruct (updateCommentLikes_found env commentId s' c' Hc')
    as (c'' & s'' & Hrun2 & Hjoin2 & _).
  exists s''. rewrite Hrec in Hrun2. done.
Qed.

End CommentLikeProperties.

Lemma likeComment_recomputes_witness :
  ∃ n s' c',
    likeComment sampleTouch sampleEnv "u1" "C" sampleLikes = (Resolved n, s') ∧
    n = 2%Z ∧ commentById s' "C" = Some c' ∧ Comment.likes c' = 2%Z ∧
    Comment.deletedAt c' = Some 10%Z.
Proof.
  destruct (likeComment_recomputes sampleTouch sampleEnv "u1" "C" sampleLikes
              (sampleComment "C" "c" "u2" None 0 (Some 10%Z) 3) eq_refl)
    as (n & s' & c' & Hrun & Hn & _ & Hc' & Hlikes & Hdel & _).
  - apply (bool_decide_unpack _). by vm_compute.
  - exists n, s', c'. split; [done|].
    assert (Hn2 : n = 2%Z).
    { rewrite Hn. vm_compute in Hrun. injection Hrun as _ <-. by vm_compute. }
    by rewrite Hlikes, Hn2.
Defined.

Lemma unlikeComment_recomputes_witness :
  ∃ n s',
    unlikeComment sampleTouch sampleEnv "u2" "C" sampleLikes = (Resolved n, s') ∧
    n = 0%Z ∧ commentLikes s' = [CommentLike.mk "B1" "u1"].
Proof.
  destruct (unlikeComment_recomputes sampleTouch sampleEnv "u2" "C" sampleLikes
              (sampleComment "C" "c" "u2" None 0 (Some 10%Z) 3) eq_refl)
    as (n & s' & c' & Hrun & Hn & _).
  exists n, s'. split; [done|].
  vm_compute in Hrun. injection Hrun as <- <-. by vm_compute.
Defined.

(** ** The viewer's like flag *)

Section PlainObjects.

Context {V : Type} (key : V → string) (fieldOf : V → string → option string).

Lemma filled_own (l : list V) (o : JsObject V) (k : string) :
  k ≠ "__proto__" →
  is_Some (own (foldl (λ acc cur, objectSet (key cur) cur acc) o l) !! k) ↔
  is_Some (own o !! k) ∨ ∃ x, x ∈ l ∧ key x = k.
Proof.
  intros Hk. revert o. induction l as [|y l IH]; intros o; simpl.
  - split; [by left|]. intros [?|(x & Hx & _)]; [done|]. by apply not_elem_of_nil in Hx.
  - rewrite IH. unfold objectSet.
    destruct (decide (key y = "__proto__")) as [Hy|Hy]; simpl.
    + split.
      * intros [?|(x & Hx & Hkx)]; [by left|]. right. exists x. split; [by right|done].
      * intros [?|(x & Hx & Hkx)]; [by left|].
        apply elem_of_cons in Hx as [->|Hx]; [congruence|]. right. by exists x.
    + destruct (decide (key y = k)) as [Hyk|Hyk].
      * rewrite Hyk, lookup_insert_eq. split; [|by left; eexists].
        intros _. right. exists y. split; [left|done].
      * rewrite lookup_insert_ne by done. split.
        -- intros [?|(x & Hx & Hkx)]; [by left|]. right. exists x. split; [by right|done].
        -- intros [?|(x & Hx & Hkx)]; [by left|].
           apply elem_of_cons in Hx as [->|Hx]; [done|]. right. by exists x.
Qed.

Lemma filled_own_proto (l : list V) (o : JsObject V) :
  own (foldl (λ acc cur, objectSet (key cur) cur acc) o l) !! "__proto__"
  = own o !! "__proto__".
Proof.
  revert o. induction l as [|y l IH]; intros o; simpl; [done|].
  rewrite IH. unfold objectSet. destruct (decide (key y = "__proto__")); simpl; [done|].
  by rewrite lookup_insert_ne.
Qed.

Lemma filled_proto (l : list V) (o : JsObject V) :
  (∀ x, x ∈ l → key x ≠ "__proto__") →
  proto (foldl (λ acc cur, objectSet (key cur) cur acc) o l) = proto o.
Proof.
  revert o. induction l as [|y l IH]; intros o Hl; simpl; [done|].
  rewrite IH by (intros x Hx; apply Hl; by right).
  unfold objectSet. rewrite decide_False; [done|]. apply Hl. left.
Qed.

(** Reading a key from an object filled with no record under
    ["__proto__"]: truthy when a record is stored under the key or the
    key names a member every object inherits. *)
Lemma filled_truthy (l : list V) (k : string) :
  (∀ x, x ∈ l → key x ≠ "__proto__") →
  toBoolean (objectGet fieldOf
               (foldl (λ acc cur, objectSet (key cur) cur acc) emptyObject l) k) = true ↔
  (∃ x, x ∈ l ∧ key x = k) ∨ k ∈ objectPrototypeKeys.
Proof.
  intros Hl. unfold objectGet. rewrite (filled_proto l emptyObject Hl). simpl.
  destruct (decide (k = "__proto__")) as [->|Hk].
  - rewrite filled_own_proto. simpl. rewrite lookup_empty.
    split; [intros _; right|done]. by apply (bool_decide_unpack _).
  - pose proof (filled_own l emptyObject k Hk) as Hown. simpl in Hown.
    rewrite lookup_empty in Hown.
    destruct (own _ !! k) as [v|] eqn:Hv; simpl.
    + split; [|done]. intros _. left.
      destruct (proj1 Hown ltac:(by eexists)) as [[? ?]|?]; done.
    + destruct (bool_decide (k ∈ objectPrototypeKeys)) eqn:Hin; simpl.
      * apply bool_decide_eq_true in Hin. split; [by right|done].
      * apply bool_decide_eq_false in Hin. split; [done|].
        intros [Hx|?]; [|done].
        destruct (proj2 Hown (or_intror Hx)) as [? ?]. done.
Qed.

(** Reading ["__proto__"] itself is truthy whatever was stored. *)
Lemma filled_truthy_proto (l : list V) :
  (∀ v, fieldOf v "__proto__" = None) →
  toBoolean (objectGet fieldOf
               (foldl (λ acc cur, objectSet (key cur) cur acc) emptyObject l)
               "__proto__") = true.
Proof.
  intros Hfield. unfold objectGet. rewrite filled_own_proto. simpl. rewrite lookup_empty.
  destruct (proto _) as [v|]; simpl; [by rewrite Hfield|done].
Qed.

End PlainObjects.

(** The flag [getPostLikedMap] and [mergePostLiked] give a fetched post. *)
Lemma postLiked_flag (s : Store) (viewer : option string) (ids : list string) (k : string) :
  k ∈ ids → (∀ id, id ∈ ids → id ≠ "__proto__") →
  toBoolean
    (optionalGet postLikeField
       (match whenTruthy viewer with
        | Some u =>
            Some (postLikeRecord
                    (filter (λ l, PostLike.postId l ∈ ids ∧ PostLike.userId l = u)
                       (postLikes s)))
        | None => None
        end) k) = true ↔
  likedPost s viewer k ∨ (is_Some (whenTruthy viewer) ∧ k ∈ objectPrototypeKeys).
Proof.
  intros Hk Hids. unfold likedPost.
  destruct (whenTruthy viewer) as [u|]; simpl.
  - unfold postLikeRecord. rewrite filled_truthy.
    + split.
      * intros [([p u'] & Hx & Hid)|Hin]; [left|right; split; [by eexists|done]].
        apply list_elem_of_filter in Hx as [[_ Hu] Hx].
        simpl in Hu, Hid. rewrite Hu, Hid in Hx. by exists u.
      * intros [(u' & [= <-] & Hin)|[_ Hin]]; [left|by right].
        exists (PostLike.mk k u). split; [|done]. by apply list_elem_of_filter.
    + intros x Hx. apply list_elem_of_filter in Hx as [[Hin _] _]. by apply Hids.
  - split; [done|]. intros [(? & ? & _)|[[? ?] _]]; done.
Qed.

Lemma commentLiked_flag (s : Store) (viewer : option string) (ids : list string) (k : string) :
  k ∈ ids → (∀ id, id ∈ ids → id ≠ "__proto__") →
  toBoolean
    (optionalGet commentLikeField
       (match whenTruthy viewer with
        | Some u =>
            Some (commentLikeRecord
                    (filter (λ l, CommentLike.commentId l ∈ ids ∧ CommentLike.userId l = u)
                       (commentLikes s)))
        | None => None
        end) k) = true ↔
  likedComment s viewer k ∨ (is_Some (whenTruthy viewer) ∧ k ∈ objectPrototypeKeys).
Proof.
  intros Hk Hids. unfold likedComment.
  destruct (whenTruthy viewer) as [u|]; simpl.
  - unfold commentLikeRecord. rewrite filled_truthy.
    + split.
      * intros [([p u'] & Hx & Hid)|Hin]; [left|right; split; [by eexists|done]].
        apply list_elem_of_filter in Hx as [[_ Hu] Hx].
        simpl in Hu, Hid. rewrite Hu, Hid in Hx. by exists u.
      * intros [(u' & [= <-] & Hin)|[_ Hin]]; [left|by right].
        exists (CommentLike.mk k u). split; [|done]. by apply list_elem_of_filter.
    + intros x Hx. apply list_elem_of_filter in Hx as [[Hin _] _]. by apply Hids.
  - split; [done|]. intros [(? & ? & _)|[[? ?] _]]; done.
Qed.

Lemma findPostBySlug_run (slug : string) (viewer : option string) (s : Store) :
  findPostBySlug slug viewer s =
  (match postBySlug s slug with
   | None => Rejected (AppErrorException NotFound)
   | Some p =>
       Resolved
         (mergePostLiked (includePost s p)
            (optionalGet postLikeField
               (match whenTruthy viewer with
                | Some u =>
                    Some (postLikeRecord
                            (filter (λ l, PostLike.postId l ∈ [Post.id p] ∧
                                          PostLike.userId l = u) (postLikes s)))
                | None => None
                end) (Post.id p)))
   end, s).
Proof.
  unfold findPostBySlug, bind at 1, post_findUnique_slug_include, query, postBySlug.
  destruct (findRow _ (posts s)) as [p|]; [|done]. simpl.
  unfold bind, getPostLikedMap, bind, postLike_findMany, query, resolve.
  by destruct (whenTruthy viewer).
Qed.

(** X3. [findPostBySlug] writes nothing.  It fails with NotFound when no
    post has the slug.  Otherwise it returns the post with that slug, its
    statistics record, and [isLiked], which is true exactly when a viewer
    is given and either has a join record with the post or the post's id
    is the name of a member every object inherits (the likes are looked
    up in a plain object). *)
Theorem findPostBySlug_found (slug : string) (viewer : option string) (s : Store) :
  snd (findPostBySlug slug viewer s) = s ∧
  (postBySlug s slug = None →
   fst (findPostBySlug slug viewer s) = Rejected (AppErrorException NotFound)) ∧
  (∀ p, postBySlug s slug = Some p →
   ∃ r, fst (findPostBySlug slug viewer s) = Resolved r ∧
     PostWithStats.row (PostWithLiked.post r) = p ∧ Post.slug p = slug ∧
     PostWithStats.postStats (PostWithLiked.post r) = statsOf s (Post.id p) ∧
     (PostWithLiked.isLiked r = true ↔
      likedPost s viewer (Post.id p) ∨
      (is_Some (whenTruthy viewer) ∧ Post.id p ∈ objectPrototypeKeys))).
Proof.
  rewrite findPostBySlug_run. simpl. split; [done|]. split; [by intros ->|].
  intros p Hp. rewrite Hp. eexists. split; [reflexivity|]. simpl.
  split; [done|]. split; [by apply findRow_Some in Hp as [_ ?]|]. split; [done|].
  destruct (decide (Post.id p = "__proto__")) as [Hproto|Hproto].
  - rewrite Hproto. unfold likedPost. destruct (whenTruthy viewer) as [u|]; simpl.
    + unfold postLikeRecord. rewrite filled_truthy_proto by (intros v; reflexivity).
      split; [|done]. intros _. right. split; [by eexists|].
      by apply (bool_decide_unpack _).
    + split; [done|]. intros [(? & ? & _)|[[? ?] _]]; done.
  - apply postLiked_flag; [left|]. intros id Hid.
    apply list_elem_of_singleton in Hid. by subst.
Qed.

Lemma findPostBySlug_found_witness :
  ∃ r, fst (findPostBySlug "ctor" (Some "u1") inheritedIds) = Resolved r ∧
    PostWithLiked.isLiked r = true ∧ postLikes inheritedIds = [].
Proof.
  destruct (findPostBySlug_found "ctor" (Some "u1") inheritedIds) as (_ & _ & Hfound).
  destruct (Hfound (Post.mk "constructor" "ctor" "ctor" "body" "u1" 100 100) eq_refl)
    as (r & Hrun & _ & _ & _ & Hliked).
  exists r. split; [done|]. split; [|done]. apply Hliked. right.
  split; [by eexists|]. by apply (bool_decide_unpack _).
Defined.

(** ** Listing comments *)

Lemma filter_fmap {A B} (f : A → B) (P : B → Prop) `{∀ y, Decision (P y)} (l : list A) :
  filter P (f <$> l) = f <$> filter (λ x, P (f x)) l.
Proof.
  induction l as [|x l IH]; [done|].
  rewrite fmap_cons, !filter_cons, IH. by destruct (decide (P (f x))).
Qed.

Lemma entries_groupSubComments (cs : list Rendered.t) (r : Rendered.t) :
  r ∈ entries (groupSubComments cs) → r ∈ cs.
Proof.
  unfold entries. rewrite groupSubComments_spec.
  intros Hr. apply list_elem_of_bind in Hr as (g & Hr & Hg).
  apply list_elem_of_fmap in Hg as (root & -> & Hroot). simpl in Hr.
  apply elem_of_cons in Hr as [->|Hr].
  - by apply list_elem_of_filter in Hroot as [_ ?].
  - by apply list_elem_of_filter in Hr as [_ ?].
Qed.

Lemma findComments_stages (slug : string) (viewer : option string) (s : Store) (post : Post.t) :
  postBySlug s slug = Some post →
  let fetched :=
    (λ c, CommentWithUser.mk c (includeUser (users s) (Comment.userId c))) <$>
    orderBy commentOrder (filter (λ c, Comment.postId c = Post.id post) (comments s)) in
  let ids := (λ c, Comment.id (CommentWithUser.row c)) <$> fetched in
  findComments slug viewer s =
  (Resolved
     (groupSubComments
        (hideDeletedComments
           ((λ c, mergeCommentLikeMap c
                    (optionalGet commentLikeField
                       (match whenTruthy viewer with
                        | Some u =>
                            Some (commentLikeRecord
                                    (filter (λ l, CommentLike.commentId l ∈ ids ∧
                                                  CommentLike.userId l = u)
                                       (commentLikes s)))
                        | None => None
                        end) (Comment.id (CommentWithUser.row c))))
            <$> fetched))), s).
Proof.
  intros Hpost fetched ids. unfold postBySlug in Hpost.
  unfold findComments, bind, post_findUnique_slug, query. rewrite Hpost.
  unfold comment_findMany, query, getCommentLikeMap, bind,
    commentLike_findMany, query, resolve.
  by destruct (whenTruthy viewer).
Qed.

(** X4. For a post none of whose comments has the id ["__proto__"]: every
    entry of the list [findComments] returns, a root or a reply, masked
    or not, is a comment of the post; its [isLiked] is true exactly when
    a viewer is given and either has a join record with the comment or
    the comment's id is the name of a member every object inherits (the
    likes are looked up in a plain object); its [isDeleted] is true
    exactly when its delete timestamp is set, and then its text is
    empty. *)
Theorem findComments_entries
    (slug : string) (viewer : option string) (s : Store) (post : Post.t)
    (Hpost : postBySlug s slug = Some post)
    (Hids : ∀ c, c ∈ comments s → Comment.postId c = Post.id post →
                 Comment.id c ≠ "__proto__") :
  ∃ gs, findComments slug viewer s = (Resolved gs, s) ∧
    Forall (λ r,
      Rendered.postId r = Post.id post ∧
      (∃ c, c ∈ comments s ∧ Comment.id c = Rendered.id r) ∧
      (Rendered.isLiked r = true ↔
       likedComment s viewer (Rendered.id r) ∨
       (is_Some (whenTruthy viewer) ∧ Rendered.id r ∈ objectPrototypeKeys)) ∧
      (Rendered.isDeleted r = true ↔ is_Some (Rendered.deletedAt r)) ∧
      (Rendered.isDeleted r = true → Rendered.text r = ""))
    (entries gs).
Proof.
  rewrite (findComments_stages slug viewer s post Hpost). cbv zeta.
  eexists. split; [reflexivity|]. apply Forall_forall. intros r Hr.
  apply entries_groupSubComments in Hr. unfold hideDeletedComments in Hr.
  apply list_elem_of_fmap in Hr as (liked & -> & Hliked).
  apply list_elem_of_fmap in Hliked as (wu & -> & Hwu).
  assert (Hid : Comment.id (CommentWithUser.row wu) ∈
                (λ c, Comment.id (CommentWithUser.row c)) <$>
                ((λ c, CommentWithUser.mk c (includeUser (users s) (Comment.userId c))) <$>
                 orderBy commentOrder
                   (filter (λ c, Comment.postId c = Post.id post) (comments s))))
    by (apply list_elem_of_fmap; by exists wu).
  assert (Hall : ∀ id,
            id ∈ (λ c, Comment.id (CommentWithUser.row c)) <$>
                 ((λ c, CommentWithUser.mk c (includeUser (users s) (Comment.userId c))) <$>
                  orderBy commentOrder
                    (filter (λ c, Comment.postId c = Post.id post) (comments s))) →
            id ≠ "__proto__").
  { intros id Hin. rewrite <- list_fmap_compose in Hin.
    apply list_elem_of_fmap in Hin as (c & -> & Hc).
    rewrite orderBy_Permutation in Hc. apply list_elem_of_filter in Hc as [Hpid Hc].
    simpl. by apply Hids. }
  apply list_elem_of_fmap in Hwu as (c & -> & Hc).
  rewrite orderBy_Permutation in Hc. apply list_elem_of_filter in Hc as [Hpid Hc].
  assert (Hflag := commentLiked_flag s viewer _ _ Hid Hall).
  unfold hideDeletedComment, mergeCommentLikeMap in *. simpl in *.
  destruct (Comment.deletedAt c) as [d|] eqn:Hd; simpl.
  - split; [done|]. split; [by exists c|]. split; [done|].
    split; [|done]. split; [by eexists|done].
  - split; [done|]. split; [by exists c|]. split; [done|].
    split; [|done]. split; [done|by intros [? ?]].
Qed.

Lemma findComments_entries_witness :
  (∃ gs, findComments "one" (Some "u2") sampleLikes = (Resolved gs, sampleLikes) ∧
     (λ r, (Rendered.id r, Rendered.isLiked r, Rendered.isDeleted r)) <$> entries gs =
     [("A", false, false); ("B", false, false); ("B1", false, false);
      ("B2", false, false); ("C", true, true)]) ∧
  (∃ gs, findComments "ctor" (Some "u2") inheritedIds = (Resolved gs, inheritedIds) ∧
     (λ r, (Rendered.id r, Rendered.isLiked r)) <$> entries gs = [("toString", true)]).
Proof.
  split.
  - destruct (findComments_entries "one" (Some "u2") sampleLikes
                (Post.mk "p1" "one" "one" "first" "u1" 100 100) eq_refl)
      as (gs & Hrun & _).
    + intros c Hc _. simpl in Hc.
      repeat (apply elem_of_cons in Hc as [->|Hc]; [done|]).
      by apply not_elem_of_nil in Hc.
    + exists gs. split; [done|].
      vm_compute in Hrun. injection Hrun as <-. by vm_compute.
  - destruct (findComments_entries "ctor" (Some "u2") inheritedIds
                (Post.mk "constructor" "ctor" "ctor" "body" "u1" 100 100) eq_refl)
      as (gs & Hrun & _).
    + intros c Hc _. simpl in Hc.
      repeat (apply elem_of_cons in Hc as [->|Hc]; [done|]).
      by apply not_elem_of_nil in Hc.
    + exists gs. split; [done|].
      vm_compute in Hrun. injection Hrun as <-. by vm_compute.
Defined.

Lemma listed_rendering (s : Store) (post : Post.t)
    (likeOf : CommentWithUser.t → JsValue CommentLike.t) (c : Comment.t) :
  c ∈ comments s → Comment.postId c = Post.id post →
  hideDeletedComment
    (mergeCommentLikeMap (CommentWithUser.mk c (includeUser (users s) (Comment.userId c)))
       (likeOf (CommentWithUser.mk c (includeUser (users s) (Comment.userId c)))))
  ∈ hideDeletedComments
      ((λ c, mergeCommentLikeMap c (likeOf c)) <$>
       ((λ c, CommentWithUser.mk c (includeUser (users s) (Comment.userId c))) <$>
        orderBy commentOrder
          (filter (λ c, Comment.postId c = Post.id post) (comments s)))).
Proof.
  intros Hc Hpid. unfold hideDeletedComments.
  apply (list_elem_of_fmap_2 hideDeletedComment).
  apply (list_elem_of_fmap_2 (λ c, mergeCommentLikeMap c (likeOf c))).
  apply (list_elem_of_fmap_2
           (λ c, CommentWithUser.mk c (includeUser (users s) (Comment.userId c)))).
  rewrite orderBy_Permutation. by apply list_elem_of_filter.
Qed.

(** C4. [hideDeletedComments] keeps every element in its place, showing
    it masked when its delete timestamp is set (empty text, zero likes,
    null author, epoch timestamps, [isDeleted] true; id, parentCommentId
    and level kept) and unchanged with [isDeleted] false when it is
    null.  In a list result of [findComments], which writes nothing to
    the store: every entry, a root or a reply, shows a stored comment of
    the post in that way; every stored root comment of the post is shown
    by a top-level entry, and every stored reply to a stored root
    comment of the post by an entry of that root's subComments, also
    when soft-deleted, so that masking removes nothing. *)
Theorem findComments_masks
    (slug : string) (viewer : option string) (s : Store) (post : Post.t)
    (Hpost : postBySlug s slug = Some post) :
  (∀ cs : list CommentWithLiked.t,
     length (hideDeletedComments cs) = length cs ∧
     ∀ i c, cs !! i = Some c →
       ∃ r, hideDeletedComments cs !! i = Some r ∧
         shownAs (CommentWithUser.row (CommentWithLiked.comment c))
                 (CommentWithUser.user (CommentWithLiked.comment c)) r ∧
         Rendered.isLiked r = CommentWithLiked.isLiked c) ∧
  ∃ gs, findComments slug viewer s = (Resolved gs, s) ∧
    Forall (λ r, ∃ c, c ∈ comments s ∧ Comment.postId c = Post.id post ∧
                      shownAs c (includeUser (users s) (Comment.userId c)) r)
      (entries gs) ∧
    (∀ c, c ∈ comments s → Comment.postId c = Post.id post →
          Comment.parentCommentId c = None →
       ∃ g, g ∈ gs ∧
         shownAs c (includeUser (users s) (Comment.userId c)) (Grouped.root g)) ∧
    (∀ c parent,
       c ∈ comments s → Comment.postId c = Post.id post →
       parent ∈ comments s → Comment.postId parent = Post.id post →
       Comment.parentCommentId parent = None → Comment.id parent ≠ "" →
       Comment.parentCommentId c = Some (Comment.id parent) →
       ∃ g r, g ∈ gs ∧ r ∈ Grouped.subComments g ∧
         shownAs parent (includeUser (users s) (Comment.userId parent)) (Grouped.root g) ∧
         shownAs c (includeUser (users s) (Comment.userId c)) r).
Proof.
  split.
  { intros cs. split; [unfold hideDeletedComments; apply length_fmap|].
    intros i c Hc. exists (hideDeletedComment c). split.
    - unfold hideDeletedComments. by rewrite list_lookup_fmap, Hc.
    - apply hideDeletedComment_shownAs. }
  destruct (findComments_run slug viewer s post Hpost) as [likeOf Hrun].
  rewrite Hrun. eexists. split; [reflexivity|].
  match goal with |- context [entries (groupSubComments ?l)] => set (cs := l) end.
  set (render := λ c : Comment.t,
         hideDeletedComment
           (mergeCommentLikeMap
              (CommentWithUser.mk c (includeUser (users s) (Comment.userId c)))
              (likeOf (CommentWithUser.mk c (includeUser (users s) (Comment.userId c)))))).
  assert (Hshown : ∀ c, shownAs c (includeUser (users s) (Comment.userId c)) (render c)).
  { intros c. subst render. cbv beta.
    apply (hideDeletedComment_shownAs
             (mergeCommentLikeMap
                (CommentWithUser.mk c (includeUser (users s) (Comment.userId c))) _)). }
  assert (Hin : ∀ c, c ∈ comments s → Comment.postId c = Post.id post → render c ∈ cs).
  { intros c Hc Hpid. by apply listed_rendering. }
  split; [|split].
  - apply Forall_forall. intros r Hr. apply entries_groupSubComments in Hr.
    subst cs. unfold hideDeletedComments in Hr.
    apply list_elem_of_fmap in Hr as (liked & -> & Hliked).
    apply list_elem_of_fmap in Hliked as (wu & -> & Hwu).
    apply list_elem_of_fmap in Hwu as (c & -> & Hc).
    rewrite orderBy_Permutation in Hc. apply list_elem_of_filter in Hc as [Hpid Hc].
    exists c. split; [done|]. split; [done|]. apply Hshown.
  - intros c Hc Hpid Hrootc.
    exists (Grouped.mk (render c) (filter (childOf (Rendered.id (render c))) cs)).
    split; [|apply Hshown].
    rewrite groupSubComments_spec. apply list_elem_of_fmap. exists (render c).
    split; [done|]. apply list_elem_of_filter. split; [|by apply Hin].
    destruct (Hshown c) as (_ & -> & _). done.
  - intros c parent Hc Hpid Hparent Hppid Hproot Hpne Hcparent.
    exists (Grouped.mk (render parent) (filter (childOf (Rendered.id (render parent))) cs)),
           (render c).
    split; [|split; [|split; apply Hshown]].
    + rewrite groupSubComments_spec. apply list_elem_of_fmap. exists (render parent).
      split; [done|]. apply list_elem_of_filter. split; [|by apply Hin].
      destruct (Hshown parent) as (_ & -> & _). done.
    + cbn [Grouped.subComments]. apply list_elem_of_filter. split; [|by apply Hin].
      unfold childOf. destruct (Hshown c) as (_ & -> & _).
      destruct (Hshown parent) as (-> & _). rewrite Hcparent.
      by apply whenTruthy_Some.
Qed.

Lemma findComments_masks_witness :
  ∃ gs, findComments "hello" None sampleStore = (Resolved gs, sampleStore) ∧
    (λ r, (Rendered.id r, Rendered.text r, Rendered.isDeleted r)) <$> entries gs =
    [("A", "a", false); ("B", "b", false); ("B1", "b1", false); ("B2", "b2", false);
     ("C", "", true)].
Proof.
  destruct (findComments_masks "hello" None sampleStore samplePost eq_refl)
    as (_ & gs & Hrun & _).
  exists gs. split; [done|].
  vm_compute in Hrun. injection Hrun as <-. by vm_compute.
Defined.

Lemma roots_of_rendered (F : Comment.t → Rendered.t) (l : list Comment.t) :
  (∀ c, Rendered.parentCommentId (F c) = Comment.parentCommentId c) →
  (∀ c, Rendered.id (F c) = Comment.id c) →
  (λ g, Rendered.id (Grouped.root g)) <$> groupSubComments (F <$> l) =
  Comment.id <$> filter (λ c, Comment.parentCommentId c = None) l.
Proof.
  intros Hparent Hid.
  rewrite groupSubComments_spec, <- list_fmap_compose, filter_fmap, <- list_fmap_compose.
  rewrite (list_filter_iff _ (λ c, Comment.parentCommentId c = None))
    by (intros c; by rewrite Hparent).
  apply list_fmap_ext. intros i c _. simpl. apply Hid.
Qed.

(** X5. [findComments] fails with NotFound, writing nothing, when no post
    has the slug.  Otherwise its top-level entries are the root comments
    of the post, each once, soft-deleted ones included: their ids are the
    ids of the stored rows of the post with a null parentCommentId, up to
    order. *)
Theorem findComments_roots (slug : string) (viewer : option string) (s : Store) :
  (postBySlug s slug = None →
   findComments slug viewer s = (Rejected (AppErrorException NotFound), s)) ∧
  (∀ post, postBySlug s slug = Some post →
   ∃ gs, findComments slug viewer s = (Resolved gs, s) ∧
     (λ g, Rendered.id (Grouped.root g)) <$> gs ≡ₚ
     Comment.id <$>
       filter (λ c, Comment.postId c = Post.id post ∧ Comment.parentCommentId c = None)
         (comments s)).
Proof.
  split.
  - unfold postBySlug. intros Hpost.
    unfold findComments, bind, post_findUnique_slug, query. by rewrite Hpost.
  - intros post Hpost. rewrite (findComments_stages slug viewer s post Hpost). cbv zeta.
    eexists. split; [reflexivity|].
    unfold hideDeletedComments. rewrite <- !list_fmap_compose.
    match goal with
    | |- context [groupSubComments (?F <$> ?L)] => rewrite (roots_of_rendered F L)
    end.
    + rewrite orderBy_Permutation, list_filter_filter.
      apply fmap_Permutation.
      erewrite list_filter_iff; [reflexivity|]. intros c. simpl. tauto.
    + intros c. simpl. unfold hideDeletedComment. simpl.
      by destruct (Comment.deletedAt c).
    + intros c. simpl. unfold hideDeletedComment. simpl.
      by destruct (Comment.deletedAt c).
Qed.

(** ** Grouping well-shaped lists *)

Lemma bind_app_Permutation {A B} (g h : A → list B) (l : list A) :
  l ≫= (λ x, g x ++ h x) ≡ₚ (l ≫= g) ++ (l ≫= h).
Proof.
  induction l as [|x l IH]; [done|].
  rewrite !bind_cons, IH, <- !app_assoc. apply Permutation_app_head.
  apply Permutation_app_swap_app.
Qed.

Lemma bind_nil_all {A B} (f : A → list B) (l : list A) :
  (∀ x, x ∈ l → f x = []) → l ≫= f = [].
Proof.
  induction l as [|x l IH]; intros Hall; [done|].
  rewrite bind_cons, Hall, IH; [done| |left]. intros y Hy. apply Hall. by right.
Qed.

Lemma bind_ext_all {A B} (f g : A → list B) (l : list A) :
  (∀ x, f x = g x) → l ≫= f = l ≫= g.
Proof.
  intros Hfg. induction l as [|x l IH]; [done|]. by rewrite !bind_cons, Hfg, IH.
Qed.

Lemma bind_singleton {A} (l : list A) : l ≫= (λ x, [x]) = l.
Proof. induction l as [|x l IH]; [done|]. by rewrite bind_cons, IH. Qed.

Lemma bind_unique_root (roots : list Rendered.t) (r0 c : Rendered.t) :
  NoDup (Rendered.id <$> roots) → r0 ∈ roots →
  roots ≫= (λ r, if decide (Rendered.id r0 = Rendered.id r) then [c] else []) = [c].
Proof.
  intros Hnd Hin. apply list_elem_of_split in Hin as (l1 & l2 & ->).
  rewrite fmap_app, fmap_cons in Hnd.
  apply NoDup_app in Hnd as (_ & Hdisj & Hnd2). apply NoDup_cons in Hnd2 as [Hnot2 _].
  rewrite bind_app, bind_cons, decide_True by done.
  rewrite !bind_nil_all; [done| |].
  - intros r Hr. rewrite decide_False; [done|]. intros Heq. apply Hnot2.
    rewrite Heq. by apply list_elem_of_fmap_2.
  - intros r Hr. rewrite decide_False; [done|]. intros Heq.
    apply (Hdisj (Rendered.id r)); [by apply list_elem_of_fmap_2|]. rewrite <- Heq. left.
Qed.

Lemma buckets_partition (roots l : list Rendered.t) :
  NoDup (Rendered.id <$> roots) →
  (∀ c, c ∈ l → ∀ p, Rendered.parentCommentId c = Some p →
     p ≠ "" ∧ ∃ r, r ∈ roots ∧ Rendered.id r = p) →
  roots ≫= (λ r, filter (childOf (Rendered.id r)) l) ≡ₚ
  filter (λ c, ¬ Rendered.parentCommentId c = None) l.
Proof.
  intros Hnd. induction l as [|c l IH]; intros Hshape.
  - by rewrite bind_nil_all.
  - assert (Hcons : roots ≫= (λ r, filter (childOf (Rendered.id r)) (c :: l)) ≡ₚ
        (roots ≫= (λ r, if decide (childOf (Rendered.id r) c) then [c] else [])) ++
        (roots ≫= (λ r, filter (childOf (Rendered.id r)) l))).
    { rewrite <- bind_app_Permutation.
      erewrite bind_ext_all; [reflexivity|].
      intros r. rewrite filter_cons. by destruct (decide _). }
    rewrite Hcons, IH by (intros c' Hc'; apply Hshape; by right).
    rewrite filter_cons.
    destruct (Rendered.parentCommentId c) as [p|] eqn:Hp.
    + destruct (Hshape c ltac:(left) p Hp) as (Hne & r0 & Hr0 & Hid).
      rewrite decide_True by done.
      assert (Hone : roots ≫= (λ r, if decide (childOf (Rendered.id r) c) then [c] else [])
                     = [c]).
      { transitivity
          (roots ≫= (λ r, if decide (Rendered.id r0 = Rendered.id r) then [c] else []));
          [|by apply bind_unique_root].
        apply bind_ext_all. intros r.
        destruct (decide (childOf (Rendered.id r) c)) as [Hch|Hch];
          destruct (decide (Rendered.id r0 = Rendered.id r)) as [He|He]; try done.
        - exfalso. unfold childOf in Hch. rewrite Hp, whenTruthy_Some in Hch by done.
          congruence.
        - exfalso. apply Hch. unfold childOf. rewrite Hp, whenTruthy_Some by done.
          congruence. }
      by rewrite Hone.
    + rewrite decide_False by (by intros ?).
      rewrite bind_nil_all; [done|]. intros r _. rewrite decide_False; [done|].
      unfold childOf. by rewrite Hp.
Qed.

(** X6. On a list of the two-level shape (the roots have distinct ids and
    every other comment names, by a non-empty id, a root of the list),
    [groupSubComments] loses and repeats nothing: the roots and
    subComments of its result are, up to order, the comments given. *)
Theorem groupSubComments_partition (cs : list Rendered.t) (Hshape : twoLevel cs) :
  entries (groupSubComments cs) ≡ₚ cs.
Proof.
  destruct Hshape as [Hnd Hparents].
  unfold entries. rewrite groupSubComments_spec.
  set (roots := filter (λ c, Rendered.parentCommentId c = None) cs) in *.
  assert (Hbind : ∀ l : list Rendered.t,
    ((λ r, Grouped.mk r (filter (childOf (Rendered.id r)) cs)) <$> l) ≫=
      (λ g, Grouped.root g :: Grouped.subComments g) =
    l ≫= (λ r, [r] ++ filter (childOf (Rendered.id r)) cs)).
  { induction l as [|r l IH]; [done|]. by rewrite fmap_cons, !bind_cons, IH. }
  rewrite Hbind, bind_app_Permutation, bind_singleton.
  rewrite buckets_partition; [apply filter_app_complement|done|].
  intros c Hc p Hp. destruct (Hparents c Hc p Hp) as (Hne & r & Hr & Hroot & Hid).
  split; [done|]. exists r. split; [|done]. by apply list_elem_of_filter.
Qed.

Lemma groupSubComments_partition_witness :
  entries (groupSubComments
             [sampleRendered "B1" (Some "B") 1; sampleRendered "A" None 0;
              sampleRendered "B" None 0; sampleRendered "B2" (Some "B") 1])
  ≡ₚ [sampleRendered "B1" (Some "B") 1; sampleRendered "A" None 0;
      sampleRendered "B" None 0; sampleRendered "B2" (Some "B") 1].
Proof.
  apply groupSubComments_partition. split.
  - apply (bool_decide_unpack _). by vm_compute.
  - intros c Hc p Hp.
    repeat (apply elem_of_cons in Hc as [->|Hc]);
      try (by apply not_elem_of_nil in Hc); try discriminate Hp;
      injection Hp as <-; (split; [done|]);
      exists (sampleRendered "B" None 0); (split; [|done]);
      right; right; left.
Defined.

(** ** One page of posts *)

Lemma fromCursor_is_suffix (id : string) (l : list Post.t) :
  ∃ l1, l = l1 ++ fromCursor id l.
Proof.
  induction l as [|p l [l1 IH]]; simpl.
  - by exists [].
  - destruct (decide (Post.id p = id)).
    + by exists [].
    + exists (p :: l1). simpl. by rewrite <- IH.
Qed.

Lemma postOrder_sorted (s : Store) : StronglySorted postOrder (orderedPosts s).
Proof.
  assert (Transitive postOrder) by (intros x y z; unfold postOrder; lia).
  assert (Total postOrder) by (intros x y; unfold postOrder; lia).
  apply StronglySorted_orderBy; apply _.
Qed.

Lemma findPostsByQuries_stages (cursor viewer : option string) (s : Store) :
  let rows := take 20 (drop 1 (cursorRows s cursor)) in
  let ids := (λ p, Post.id (PostWithStats.row p)) <$> (includePost s <$> rows) in
  let posts :=
    (λ post, mergePostLiked post
               (optionalGet postLikeField
                  (match whenTruthy viewer with
                   | Some u =>
                       Some (postLikeRecord
                               (filter (λ l, PostLike.postId l ∈ ids ∧
                                             PostLike.userId l = u) (postLikes s)))
                   | None => None
                   end) (Post.id (PostWithStats.row post))))
    <$> (includePost s <$> rows) in
  findPostsByQuries cursor viewer s =
  (Resolved (Page.mk posts (postId_of <$> posts !! 19)), s).
Proof.
  intros rows ids posts.
  unfold findPostsByQuries, bind, post_findMany, query, getPostLikedMap, bind,
    postLike_findMany, query, resolve.
  fold (orderedPosts s).
  change (match whenTruthy cursor with
          | Some id => fromCursor id (orderedPosts s)
          | None => orderedPosts s
          end) with (cursorRows s cursor).
  by destruct (whenTruthy viewer).
Qed.

(** X7. A page of [findPostsByQuries], when no stored post has the id
    ["__proto__"]: the call writes nothing; the page holds at most 20
    posts, stored ones, newest first, each with its statistics record;
    without a cursor it holds exactly the smaller of 20 and the number of
    stored posts less one (the first row is passed over); [isLiked] is
    true exactly when a viewer is given and either has a join record with
    the post or the post's id is the name of a member every object
    inherits; [nextCursor] is the id of the last post of a page of 20 and
    absent for a shorter page. *)
Theorem findPostsByQuries_page
    (cursor viewer : option string) (s : Store)
    (Hids : ∀ p, p ∈ posts s → Post.id p ≠ "__proto__") :
  ∃ page, findPostsByQuries cursor viewer s = (Resolved page, s) ∧
    length (Page.posts page) ≤ 20 ∧
    (whenTruthy cursor = None →
     length (Page.posts page) = 20 `min` (length (posts s) - 1)) ∧
    StronglySorted postOrder (rowsOf (Page.posts page)) ∧
    Forall (λ r,
      PostWithStats.row (PostWithLiked.post r) ∈ posts s ∧
      PostWithStats.postStats (PostWithLiked.post r) = statsOf s (postId_of r) ∧
      (PostWithLiked.isLiked r = true ↔
       likedPost s viewer (postId_of r) ∨
       (is_Some (whenTruthy viewer) ∧ postId_of r ∈ objectPrototypeKeys)))
      (Page.posts page) ∧
    (length (Page.posts page) = 20 →
     Page.nextCursor page = postId_of <$> last (Page.posts page)) ∧
    (length (Page.posts page) < 20 → Page.nextCursor page = None).
Proof.
  rewrite findPostsByQuries_stages. cbv zeta.
  set (rows := take 20 (drop 1 (cursorRows s cursor))).
  eexists. split; [reflexivity|]. cbn [Page.posts Page.nextCursor].
  assert (Hsub : ∃ l1 l2, orderedPosts s = l1 ++ rows ++ l2).
  { assert (Hsuffix : ∃ l1, orderedPosts s = l1 ++ cursorRows s cursor).
    { unfold cursorRows. destruct (whenTruthy cursor) as [id|].
      - apply fromCursor_is_suffix.
      - by exists []. }
    destruct Hsuffix as [l1 Hl1].
    exists (l1 ++ take 1 (cursorRows s cursor)), (drop 20 (drop 1 (cursorRows s cursor))).
    subst rows. by rewrite take_drop, <- app_assoc, take_drop. }
  destruct Hsub as (l1 & l2 & Hsub).
  assert (Hstored : ∀ p, p ∈ rows → p ∈ posts s).
  { intros p Hp. unfold orderedPosts in Hsub.
    rewrite <- (orderBy_Permutation postOrder (posts s)), Hsub.
    apply elem_of_app. right. apply elem_of_app. by left. }
  split; [|split; [|split; [|split; [|split]]]].
  - rewrite !length_fmap. subst rows. rewrite length_take. lia.
  - intros Hnone. rewrite !length_fmap. subst rows.
    unfold cursorRows. rewrite Hnone, length_take, length_drop.
    unfold orderedPosts. by rewrite orderBy_Permutation.
  - match goal with
    | |- StronglySorted _ (rowsOf ?l) =>
        assert (Hrows : rowsOf l = rows)
          by (unfold rowsOf; rewrite <- !list_fmap_compose; apply list_fmap_id)
    end.
    rewrite Hrows.
    pose proof (postOrder_sorted s) as Hsorted. rewrite Hsub in Hsorted.
    apply StronglySorted_app_1_r in Hsorted. by apply StronglySorted_app_1_l in Hsorted.
  - apply Forall_forall. intros r Hr.
    apply list_elem_of_fmap in Hr as (ps & -> & Hps).
    assert (Hid : Post.id (PostWithStats.row ps) ∈
                  (λ p, Post.id (PostWithStats.row p)) <$> (includePost s <$> rows))
      by (apply list_elem_of_fmap; by exists ps).
    assert (Hall : ∀ id,
              id ∈ (λ p, Post.id (PostWithStats.row p)) <$> (includePost s <$> rows) →
              id ≠ "__proto__").
    { intros id Hin. rewrite <- list_fmap_compose in Hin.
      apply list_elem_of_fmap in Hin as (p & -> & Hp). simpl. apply Hids. by apply Hstored. }
    apply list_elem_of_fmap in Hps as (p & -> & Hp).
    split; [|split].
    + simpl. by apply Hstored.
    + done.
    + unfold mergePostLiked, postId_of. cbn [PostWithLiked.isLiked PostWithLiked.post].
      by apply postLiked_flag.
  - intros Hlen. rewrite last_lookup, Hlen. done.
  - intros Hlen. by rewrite lookup_ge_None_2 by lia.
Qed.

Lemma findPostsByQuries_page_witness :
  ∃ page, findPostsByQuries None (Some "u1") sampleLikes = (Resolved page, sampleLikes) ∧
    (λ r, (postId_of r, PostWithLiked.isLiked r)) <$> Page.posts page =
      [("p2", true); ("p1", false)] ∧
    Page.nextCursor page = None.
Proof.
  destruct (findPostsByQuries_page None (Some "u1") sampleLikes)
    as (page & Hrun & _ & _ & _ & _ & _ & Hnone).
  - intros p Hp. simpl in Hp.
    repeat (apply elem_of_cons in Hp as [->|Hp]; [done|]).
    by apply not_elem_of_nil in Hp.
  - exists page. split; [done|].
    assert (Hlen : length (Page.posts page) = 2).
    { vm_compute in Hrun. by injection Hrun as <-. }
    split; [|apply Hnone; lia].
    vm_compute in Hrun. injection Hrun as <-. by vm_compute.
Defined.

Lemma distinct_keys {A B} (f : A → B) (l : list A) (x y : A) :
  NoDup (f <$> l) → x ∈ l → y ∈ l → f x = f y → x = y.
Proof.
  intros Hnd Hx Hy Hf.
  apply list_elem_of_lookup in Hx as [i Hi]. apply list_elem_of_lookup in Hy as [j Hj].
  assert (i = j).
  { apply (NoDup_lookup _ i j (f x) Hnd).
    - by rewrite list_lookup_fmap, Hi.
    - by rewrite list_lookup_fmap, Hj, Hf. }
  subst. congruence.
Qed.

(** X8. With distinct post ids and distinct creation times, take any
    newest-first listing of the stored posts and a post [c] in it: the
    page asked for with the id of [c] as cursor is the (up to) 20 posts
    that follow [c] in the listing, so it holds neither [c] nor any post
    listed before it. *)
Theorem findPostsByQuries_after_cursor
    (viewer : option string) (s : Store) (older newer : list Post.t) (c : Post.t)
    (Hunique : NoDup (Post.id <$> posts s))
    (Hdistinct : NoDup (Post.createdAt <$> posts s))
    (Hlisting : newer ++ c :: older ≡ₚ posts s)
    (Hsorted : StronglySorted postOrder (newer ++ c :: older))
    (Hid : Post.id c ≠ "") :
  ∃ page, findPostsByQuries (Some (Post.id c)) viewer s = (Resolved page, s) ∧
    rowsOf (Page.posts page) = take 20 older ∧
    Forall (λ p, p ∉ rowsOf (Page.posts page)) (newer ++ [c]).
Proof.
  assert (Hcursor : orderedPosts s = newer ++ c :: older).
  { symmetry. apply (StronglySorted_unique_strong postOrder).
    - intros x y Hx Hy Hxy Hyx. rewrite Hlisting in Hx.
      unfold orderedPosts in Hy. rewrite orderBy_Permutation in Hy.
      apply (distinct_keys Post.createdAt (posts s)); [done..|].
      unfold postOrder in *. lia.
    - done.
    - apply postOrder_sorted.
    - unfold orderedPosts. by rewrite orderBy_Permutation. }
  destruct (findPostsByQuries_run (Some (Post.id c)) viewer s)
    as (page & Hrun & Hrows & _).
  assert (Hnd : NoDup (Post.id <$> orderedPosts s)).
  { unfold orderedPosts. by rewrite orderBy_Permutation. }
  assert (Hcur : cursorRows s (Some (Post.id c)) = c :: older).
  { unfold cursorRows. rewrite whenTruthy_Some by done. rewrite Hcursor.
    apply fromCursor_middle. rewrite Hcursor, fmap_app, fmap_cons in Hnd.
    apply NoDup_app in Hnd as (_ & Hdisj & _).
    intros Hin. apply (Hdisj _ Hin). left. }
  rewrite Hcur in Hrows. simpl in Hrows. rewrite drop_0 in Hrows.
  exists page. split; [done|]. split; [done|].
  apply Forall_forall. intros p Hp. rewrite Hrows. intros Hin.
  apply NoDup_fmap_1 in Hnd. rewrite Hcursor in Hnd.
  assert (Hold : p ∈ older).
  { rewrite <- (take_drop 20 older). apply elem_of_app. by left. }
  replace (newer ++ c :: older) with ((newer ++ [c]) ++ older) in Hnd
    by (by rewrite <- app_assoc).
  apply NoDup_app in Hnd as (_ & Hdisj & _). by apply (Hdisj p).
Qed.

Lemma findPostsByQuries_after_cursor_witness :
  ∃ page, findPostsByQuries (Some "p3") None threePosts = (Resolved page, threePosts) ∧
    Post.id <$> rowsOf (Page.posts page) = ["p2"; "p1"].
Proof.
  destruct (findPostsByQuries_after_cursor None threePosts
              [Post.mk "p2" "two" "two" "second" "u2" 200 200;
               Post.mk "p1" "one" "one" "first" "u1" 100 100]
              [] (Post.mk "p3" "three" "three" "third" "u1" 300 300))
    as (page & Hrun & Hrows & _).
  - apply (bool_decide_unpack _). by vm_compute.
  - apply (bool_decide_unpack _). by vm_compute.
  - simpl. etransitivity; [|apply (orderBy_Permutation postOrder)]. by vm_compute.
  - simpl. repeat constructor; unfold postOrder; simpl; lia.
  - done.
  - exists page. split; [done|]. by rewrite Hrows.
Defined.

(** ** Creating and deleting comments *)


Lemma postStats_update_missing (postId : string) (data : PostStats.t → PostStats.t)
    (s : Store) :
  statsOf s postId = None →
  postStats_update postId data s = (Rejected (PrismaClientKnownRequestError P2025), s).
Proof. unfold statsOf, postStats_update. by intros ->. Qed.

Section CommentLifecycle.

Variable touch : Z → Z → Z.



(** X11. A rejected [createComment] can leave its comment behind: when the
    request names a stored post and a stored author, the post has no
    statistics record, no parent is given and the id is fresh, the
    comment is inserted, then the update of the post's commentsCount
    rejects with P2025, and the inserted comment stays in the store. *)
Theorem createComment_rejected_after_insert
    (env : Env.t) (userId : string) (dto : CreateCommentDto.t) (s : Store)
    (Hpost : is_Some (postById s (CreateCommentDto.postId dto)))
    (Hauthor : is_Some (findRow (λ u, User.id u = userId) (users s)))
    (Hroot : whenTruthy (CreateCommentDto.parentCommentId dto) = None)
    (Hfresh : commentById s (Env.newId env) = None)
    (Hnostats : statsOf s (CreateCommentDto.postId dto) = None) :
  ∃ s', createComment touch env userId dto s
        = (Rejected (PrismaClientKnownRequestError P2025), s') ∧
    comments s' =
      comments s ++
      [newComment env (CreateCommentDto.text dto) userId (CreateCommentDto.postId dto)
         None None] ∧
    postStats s' = postStats s.
Proof.
  unfold createComment. rewrite Hroot. unfold bind at 1. unfold resolve at 1.
  cbn [fmap option_fmap option_map].
  set (new := newComment _ _ _ _ _ _).
  rewrite (bind_run _ _ _ _ _ (comment_create_fresh new s Hfresh)).
  set (s1 := set_comments _ s).
  unfold bind at 1. unfold resolve at 1.
  unfold bind at 1. unfold updatePostCommentsCount, bind at 1, comment_count, query.
  unfold bind.
  assert (Hst1 : statsOf s1 (CreateCommentDto.postId dto) = None) by exact Hnostats.
  rewrite (postStats_update_missing _ _ s1 Hst1).
  by exists s1.
Qed.

(** X12. After [deleteComment] by its author, the comment can no longer be
    looked up or deleted: [findComment] and a second [deleteComment], by
    anyone and at any time, fail with NotFound and change nothing, so the
    delete timestamp of the first call stays. *)
Theorem deleteComment_then_NotFound
    (env env' : Env.t) (userId userId' commentId : string) (s : Store) (c : Comment.t)
    (Hc : commentById s commentId = Some c)
    (Hlive : Comment.deletedAt c = None)
    (Hauthor : Comment.userId c = userId) :
  ∃ c' s', deleteComment touch env userId commentId s = (Resolved c', s') ∧
    findComment commentId s' = (Rejected (AppErrorException NotFound), s') ∧
    deleteComment touch env' userId' commentId s'
    = (Rejected (AppErrorException NotFound), s') ∧
    ∃ d, commentById s' commentId = Some d ∧ Comment.deletedAt d = Some (Env.now env).
Proof.
  unfold deleteComment at 1. unfold bind. rewrite findComment_run, Hc, Hlive.
  rewrite bool_decide_false by (by intros [? ?]). cbn [CommentWithUser.row].
  rewrite bool_decide_false by (by intros ?).
  rewrite (comment_update_found _ _ _ _ _ _ Hc).
  set (s' := set_comments _ s).
  assert (Hc' : commentById s' commentId =
                Some (withUpdatedAt (touch (Env.now env) (Comment.updatedAt c))
                        (withDeletedAt (Some (Env.now env)) c))).
  { unfold commentById in *. subst s'. cbn [comments set_comments].
    rewrite findRow_updateRows by done. by rewrite Hc. }
  assert (Hfind : findComment commentId s' = (Rejected (AppErrorException NotFound), s')).
  { rewrite findComment_run, Hc'. by rewrite bool_decide_true by (by eexists). }
  eexists _, s'. split; [reflexivity|]. split; [done|]. split.
  - unfold deleteComment, bind. by rewrite Hfind.
  - by eexists.
Qed.

End CommentLifecycle.



Lemma createComment_rejected_after_insert_witness :
  ∃ s',
    createComment sampleTouch sampleEnv "u2" (CreateCommentDto.mk "left" "p1" None)
      (set_postStats (λ _, []) sampleStore)
    = (Rejected (PrismaClientKnownRequestError P2025), s') ∧
    length (comments s') = 6.
Proof.
  destruct (createComment_rejected_after_insert sampleTouch sampleEnv "u2"
              (CreateCommentDto.mk "left" "p1" None) (set_postStats (λ _, []) sampleStore)
              ltac:(by eexists) ltac:(by eexists) eq_refl eq_refl eq_refl)
    as (s' & Hrun & Hcomments & _).
  exists s'. split; [done|]. by rewrite Hcomments.
Defined.

Lemma deleteComment_then_NotFound_witness :
  ∃ c' s',
    deleteComment sampleTouch sampleEnv "u1" "A" sampleStore = (Resolved c', s') ∧
    findComment "A" s' = (Rejected (AppErrorException NotFound), s') ∧
    deleteComment sampleTouch (Env.mk 60 "M" "y") "u1" "A" s'
    = (Rejected (AppErrorException NotFound), s').
Proof.
  destruct (deleteComment_then_NotFound sampleTouch sampleEnv (Env.mk 60 "M" "y")
              "u1" "u1" "A" sampleStore (sampleComment "A" "a" "u1" None 0 None 1)
              eq_refl eq_refl eq_refl)
    as (c' & s' & Hrun & Hfind & Hagain & _).
  by exists c', s'.
Defined.

(** ** Likes on posts: round trip and frame *)

Lemma filter_ne_absent {A} `{EqDecision A} (x : A) (l : list A) :
  x ∉ l → filter (λ y, y ≠ x) l = l.
Proof.
  induction l as [|y l IH]; intros Hx; [done|].
  apply not_elem_of_cons in Hx as [Hne Hx].
  rewrite filter_cons_True by done. by rewrite IH.
Qed.

Lemma statsOf_updateRows_other (postId postId' : string) (f : PostStats.t → PostStats.t)
    (s : Store) :
  postId' ≠ postId → (∀ st, PostStats.postId (f st) = PostStats.postId st) →
  statsOf (set_postStats (updateRows (λ st, PostStats.postId st = postId) f) s) postId'
  = statsOf s postId'.
Proof.
  intros Hne Hf. unfold statsOf, findRow. cbn [postStats set_postStats].
  rewrite filter_updateRows_other; [done|].
  intros st Hst. rewrite Hf. split; congruence.
Qed.

(** X13. A like followed by an unlike by the same user, on a post with
    its statistics record that the user had not liked: the join table is
    back as it was; [likes] reads the earlier number of join records plus
    one after the like and that number again after the unlike; the post's
    commentsCount and the statistics of every other post are untouched. *)
Theorem likePost_unlikePost_round_trip
    (userId postId : string) (s : Store) (st : PostStats.t)
    (Hstats : statsOf s postId = Some st)
    (Hnew : PostLike.mk postId userId ∉ postLikes s) :
  ∃ st1 s1 st2 s2,
    likePost userId postId s = (Resolved st1, s1) ∧
    unlikePost userId postId s1 = (Resolved st2, s2) ∧
    postLikes s1 = postLikes s ++ [PostLike.mk postId userId] ∧
    postLikes s2 = postLikes s ∧
    PostStats.likes st1 = (Z.of_nat (likeRecords s postId) + 1)%Z ∧
    PostStats.likes st2 = Z.of_nat (likeRecords s postId) ∧
    statsOf s2 postId = Some st2 ∧
    PostStats.commentsCount st2 = PostStats.commentsCount st ∧
    (∀ other, other ≠ postId → statsOf s2 other = statsOf s other) ∧
    comments s2 = comments s ∧ posts s2 = posts s.
Proof.
  rewrite likePost_run, decide_False by done.
  set (s0 := set_postLikes _ s).
  assert (Hst0 : statsOf s0 postId = Some st) by exact Hstats.
  rewrite (updatePostLikes_found postId s0 st Hst0).
  set (s1 := set_postStats _ s0).
  set (st1 := withLikes _ st).
  assert (Hst1 : statsOf s1 postId = Some st1).
  { unfold statsOf in *. subst s1. cbn [postStats set_postStats].
    rewrite findRow_updateRows by done. by rewrite Hst0. }
  assert (Hin1 : PostLike.mk postId userId ∈ postLikes s1).
  { subst s1 s0. simpl. apply elem_of_app. right. left. }
  exists st1, s1. rewrite unlikePost_run, decide_True by done.
  set (s1' := set_postLikes _ s1).
  assert (Hst1' : statsOf s1' postId = Some st1) by exact Hst1.
  rewrite (updatePostLikes_found postId s1' st1 Hst1').
  set (s2 := set_postStats _ s1').
  assert (Hback : postLikes s2 = postLikes s).
  { subst s2 s1' s1 s0. cbn [postLikes set_postLikes set_postStats].
    rewrite filter_app, filter_ne_absent by done.
    rewrite filter_cons_False by (by intros ?). by rewrite app_nil_r. }
  assert (Hrec1 : likeRecords s0 postId = likeRecords s postId + 1).
  { unfold likeRecords. subst s0. cbn [postLikes set_postLikes].
    rewrite filter_app, length_app. by rewrite filter_cons_True. }
  assert (Hrec2 : likeRecords s1' postId = likeRecords s postId).
  { unfold likeRecords. by rewrite <- Hback. }
  eexists _, s2. split; [reflexivity|]. split; [reflexivity|].
  split; [done|]. split; [done|].
  split; [subst st1; cbn [PostStats.likes withLikes]; rewrite Hrec1; lia|].
  split; [cbn [PostStats.likes withLikes]; by rewrite Hrec2|].
  split.
  { unfold statsOf in *. subst s2. cbn [postStats set_postStats].
    rewrite findRow_updateRows by done. by rewrite Hst1'. }
  split; [done|]. split; [|done].
  intros other Hother. subst s2.
  rewrite statsOf_updateRows_other by done.
  change (statsOf s1' other) with (statsOf s1 other). subst s1.
  rewrite statsOf_updateRows_other by done. done.
Qed.

Lemma likePost_unlikePost_round_trip_witness :
  ∃ st1 s1 st2 s2,
    likePost "u2" "p2" sampleLikes = (Resolved st1, s1) ∧
    unlikePost "u2" "p2" s1 = (Resolved st2, s2) ∧
    PostStats.likes st1 = 2%Z ∧ PostStats.likes st2 = 1%Z ∧
    postLikes s2 = [PostLike.mk "p2" "u1"].
Proof.
  destruct (likePost_unlikePost_round_trip "u2" "p2" sampleLikes (PostStats.mk "p2" 0 0)
              eq_refl)
    as (st1 & s1 & st2 & s2 & Hlike & Hunlike & _ & Hback & Hl1 & Hl2 & _).
  - intros Hin. apply elem_of_cons in Hin as [[=]|Hin]. by apply not_elem_of_nil in Hin.
  - by exists st1, s1, st2, s2.
Defined.

(** ** Posts: creation, lookup, deletion, search *)

Section PostLifecycle.

Variable slugify : string → string.


End PostLifecycle.


Lemma findPostById_run (postId : string) (s : Store) :
  findPostById postId s =
  (match postById s postId with
   | None => Rejected (AppErrorException NotFound)
   | Some p => Resolved (includePost s p)
   end, s).
Proof.
  unfold findPostById, bind, post_findUnique_id, query, postById.
  by destruct (findRow _ (posts s)).
Qed.

(** X15. [deletePost] fails with NotFound when no post has the id and
    with Unauthorized when the requester is not the post's author, and
    then writes nothing; it never resolves for anyone but the author:
    whenever it resolves, the post returned is the stored post with that
    id and the requester is its author. *)
Theorem deletePost_only_by_author (userId postId : string) (s : Store) :
  (postById s postId = None →
   deletePost userId postId s = (Rejected (AppErrorException NotFound), s)) ∧
  (∀ p, postById s postId = Some p → Post.userId p ≠ userId →
   deletePost userId postId s = (Rejected (AppErrorException Unauthorized), s)) ∧
  (∀ r s', deletePost userId postId s = (Resolved r, s') →
   postById s postId = Some r ∧ Post.userId r = userId ∧ postById s' postId = None).
Proof.
  unfold deletePost, bind. rewrite findPostById_run.
  destruct (postById s postId) as [p|] eqn:Hp.
  - cbn [PostWithStats.row includePost]. split; [done|]. split.
    + intros ? [= <-] Hne. by rewrite bool_decide_true.
    + intros r s'. destruct (decide (Post.userId p = userId)) as [Hu|Hu].
      * rewrite bool_decide_false by (by intros ?).
        unfold post_delete. unfold postById in Hp. rewrite Hp.
        intros [= <- <-]. split; [done|]. split; [done|].
        apply findRow_None. intros x Hx. cbn [posts set_posts] in Hx.
        by apply list_elem_of_filter in Hx as [? _].
      * by rewrite bool_decide_true.
  - split; [done|]. split; [done|]. intros r s' [=].
Qed.

Section SearchProperties.

Variable contains : string → string → bool.

(** X16. [searchPosts] writes nothing and returns every post whose title
    or body contains the keyword, each as often as it is stored and no
    other post, newest first, with its statistics record; the result is
    not cut to a page. *)
Theorem searchPosts_all_matches (keyword : string) (s : Store) :
  ∃ l, searchPosts contains keyword s = (Resolved l, s) ∧
    PostWithStats.row <$> l ≡ₚ filter (matches contains keyword) (posts s) ∧
    (∀ p, p ∈ PostWithStats.row <$> l ↔
          p ∈ posts s ∧
          (contains (Post.title p) keyword = true ∨ contains (Post.body p) keyword = true)) ∧
    StronglySorted postOrder (PostWithStats.row <$> l) ∧
    Forall (λ r, PostWithStats.postStats r = statsOf s (Post.id (PostWithStats.row r))) l.
Proof.
  eexists. split; [reflexivity|].
  assert (Hrows : PostWithStats.row <$>
                  (includePost s <$>
                   orderBy postOrder (filter (matches contains keyword) (posts s)))
                  = orderBy postOrder (filter (matches contains keyword) (posts s))).
  { rewrite <- list_fmap_compose. apply list_fmap_id. }
  rewrite Hrows. split; [apply orderBy_Permutation|]. split; [|split].
  - intros p. rewrite orderBy_Permutation, list_elem_of_filter. unfold matches. tauto.
  - assert (Transitive postOrder) by (intros x y z; unfold postOrder; lia).
    assert (Total postOrder) by (intros x y; unfold postOrder; lia).
    apply StronglySorted_orderBy; apply _.
  - apply Forall_forall. intros r Hr. by apply list_elem_of_fmap in Hr as (p & -> & _).
Qed.

End SearchProperties.

Lemma searchPosts_all_matches_witness :
  ∃ l, searchPosts sampleContains "o" threePosts = (Resolved l, threePosts) ∧
    (λ r, Post.id (PostWithStats.row r)) <$> l = ["p2"; "p1"].
Proof.
  destruct (searchPosts_all_matches sampleContains "o" threePosts) as (l & Hrun & _).
  exists l. split; [done|]. vm_compute in Hrun. injection Hrun as <-. by vm_compute.
Defined.
